(** * Keno odds simulator: a shallow embedding of [index.js]

    The development follows the CLI analyser of the repository
    ([factorial], [binomial], [calculateProbability], [probabilityToOdds]
    and the two aggregation loops of [analyzeKeno]).

    Data model.
    - A JS [BigInt] is a [Z].
    - A JS [Number] is an IEEE-754 binary64 value.  It is represented by the
      Standard Library's executable specification of binary64
      ([spec_float] with [prec = 53] and [emax = 1024]); arithmetic is
      round-to-nearest, ties-to-even, exactly as [*], [/], [+] and [-] of JS.
    - The loop counters [picks], [hits] and the arguments [n], [k] of
      [binomial] are integer-valued Numbers; they are represented by [Z]:
      the comparisons and subtractions the code performs on such values
      (below [2^53]) are exact.
    - The payout table [payouts[picks][hits]] is a finite map of finite maps
      whose leaves are Numbers (what [parseFloat] stored). *)

From Stdlib Require Import ZArith QArith Qabs Lia List String Ascii Bool.
From Stdlib Require Import Floats.SpecFloat DecimalString.
From stdpp Require Import gmap strings.

Local Open Scope Z_scope.

(** ** JS Numbers *)

Module JS.

Definition prec : Z := 53.
Definition emax : Z := 1024.

Definition number : Type := spec_float.

(** [Number(b)] for a BigInt [b]: the double nearest to [b], ties to even. *)
Definition Number (b : Z) : number := binary_normalize prec emax b 0 false.

Definition fmul (x y : number) : number := SFmul prec emax x y.
Definition fdiv (x y : number) : number := SFdiv prec emax x y.
Definition fadd (x y : number) : number := SFadd prec emax x y.
Definition fsub (x y : number) : number := SFsub prec emax x y.

(** [x === y] and [x > y] on Numbers. *)
Definition strict_eq (x y : number) : bool := SFeqb x y.
Definition gt (x y : number) : bool := SFltb y x.

(** [ToBoolean] of a Number: false for [+0], [-0] and [NaN]. *)
Definition truthy (x : number) : bool :=
  match x with
  | S754_zero _ | S754_nan => false
  | _ => true
  end.

Definition is_finite (x : number) : bool :=
  match x with
  | S754_zero _ | S754_finite _ _ _ => true
  | _ => false
  end.

(** The real number a finite double stands for, as an exact rational. *)
Definition value (x : number) : option Q :=
  match x with
  | S754_zero _ => Some 0%Q
  | S754_finite s m e =>
      let a := if s then Z.neg m else Z.pos m in
      Some (if 0 <=? e then inject_Z (a * 2 ^ e) else (a # Pos.pow 2 (Z.to_pos (- e))))
  | _ => None
  end.

(** The integer a double stands for, when it is finite and integral. *)
Definition int_value (x : number) : option Z :=
  match x with
  | S754_zero _ => Some 0
  | S754_finite s m e =>
      let a := if s then Z.neg m else Z.pos m in
      if 0 <=? e then Some (a * 2 ^ e)
      else if a mod 2 ^ (- e) =? 0 then Some (a / 2 ^ (- e)) else None
  | _ => None
  end.

End JS.

Import JS.

(** ** Game constants *)

Definition TOTAL_NUMBERS : Z := 80.
Definition NUMBERS_DRAWN : Z := 20.
Definition NUMBERS_NOT_DRAWN : Z := TOTAL_NUMBERS - NUMBERS_DRAWN.

(** ** Counted loops

    [for (let i = a; i <= b; i++) body] and [for (let i = a; i < b; i++) body]
    never assign [i] or the bound in their bodies, so they run the body
    for [i = a, a+1, ...], a number of times fixed on entry. *)

Fixpoint for_loop {St : Type} (count : nat) (i : Z) (body : Z -> St -> St) (s : St) : St :=
  match count with
  | O => s
  | S c => for_loop c (i + 1) body (body i s)
  end.

(** [for (let i = a; i <= b; i++)] *)
Definition for_le {St : Type} (a b : Z) (body : Z -> St -> St) (s : St) : St :=
  for_loop (Z.to_nat (b + 1 - a)) a body s.

(** [for (let i = a; i < b; i++)] *)
Definition for_lt {St : Type} (a b : Z) (body : Z -> St -> St) (s : St) : St :=
  for_loop (Z.to_nat (b - a)) a body s.

(** ** Math utilities *)

(** [factorial(n)] on BigInt. *)
Definition factorial (n : Z) : Z :=
  if n <=? 1 then 1
  else for_le 2 n (fun i result => result * i) 1.

(** The BigInt part of [binomial], after the two early returns:
    [numerator / denominator] with [k] replaced by [n - k] when that is
    smaller.  BigInt division truncates. *)
Definition binomial_quotient (n k : Z) : Z :=
  let k := if k >? n - k then n - k else k in
  let nBig := n in
  let kBig := k in
  let numerator := for_lt 0 kBig (fun i numerator => numerator * (nBig - i)) 1 in
  let denominator := factorial kBig in
  Z.quot numerator denominator.

(** [binomial(n, k)] *)
Definition binomial (n k : Z) : number :=
  if (k <? 0) || (k >? n) then Number 0
  else if (k =? 0) || (k =? n) then Number 1
  else Number (binomial_quotient n k).

(** The guard of [calculateProbability]. *)
Definition impossible_outcome (picks hits : Z) : bool :=
  (hits >? picks) || (hits >? NUMBERS_DRAWN) || (picks - hits >? NUMBERS_NOT_DRAWN).

(** [calculateProbability(picks, hits)], instrumented: the second component
    lists the calls to [binomial] in evaluation order. *)
Definition calculateProbability_calls (picks hits : Z) : number * list (Z * Z) :=
  if impossible_outcome picks hits then (Number 0, nil)
  else
    let waysToHit := binomial NUMBERS_DRAWN hits in
    let waysToMiss := binomial NUMBERS_NOT_DRAWN (picks - hits) in
    let totalWays := binomial TOTAL_NUMBERS picks in
    (fdiv (fmul waysToHit waysToMiss) totalWays,
     (NUMBERS_DRAWN, hits) :: (NUMBERS_NOT_DRAWN, picks - hits) :: (TOTAL_NUMBERS, picks) :: nil).

Definition calculateProbability (picks hits : Z) : number :=
  fst (calculateProbability_calls picks hits).

(** ** Rendering Numbers

    [Number::toString], [toFixed] and
    [toLocaleString('en-US', { maximumFractionDigits: 2 })], all computed
    from the exact value [m * 2^e] of the double. *)

Module Render.

Definition digits (n : Z) : string := NilZero.string_of_uint (N.to_uint (Z.to_N n)).

Fixpoint zeros (k : nat) : string :=
  match k with
  | O => ""
  | S k' => String "0" (zeros k')
  end.

(** Magnitude of a finite double as [(m, e)], [|x| = m * 2^e]. *)
Definition magnitude (x : number) : Z * Z :=
  match x with
  | S754_finite _ m e => (Z.pos m, e)
  | _ => (0, 0)
  end.

(** The same magnitude as a fraction [a / b] of integers. *)
Definition fraction (x : number) : Z * Z :=
  let '(m, e) := magnitude x in
  if 0 <=? e then (m * 2 ^ e, 1) else (m, 2 ^ (- e)).

(** The integer [n] for which [n / 10^f - |x|] is closest to zero, the larger
    one when there are two. *)
Definition round_scaled (x : number) (f : Z) : Z :=
  let '(a, b) := fraction x in
  (2 * a * 10 ^ f + b) / (2 * b).

(** [n] written with at least [f + 1] digits, split before the last [f]. *)
Definition split_fraction (n f : Z) : string * string :=
  let m := digits n in
  let k := String.length m in
  let fn := Z.to_nat f in
  let m := if (k <=? fn)%nat then zeros (fn + 1 - k) +:+ m else m in
  let k := String.length m in
  (substring 0 (k - fn) m, substring (k - fn) fn m).

(** The Number value for the decimal [s * 10^t], [s > 0]: the nearest
    double, ties to even. *)
Definition decimal_to_number (s t : Z) : number :=
  if 0 <=? t then Number (s * 10 ^ t)
  else SFdiv prec emax (S754_finite false (Z.to_pos s) 0)
                       (S754_finite false (Z.to_pos (10 ^ (- t))) 0).

Definition roundtrips (x : number) (s t : Z) : bool :=
  match x, decimal_to_number s t with
  | S754_finite _ m e, S754_finite _ m' e' => (Pos.eqb m m') && (e =? e')
  | _, _ => false
  end.

(** The [n0] with [10^(n0-1) <= |x| < 10^n0], for a finite nonzero [x]
    (the least positive double is above [10^-400]). *)
Definition decimal_exponent (x : number) : Z :=
  let '(a, b) := fraction x in
  Z.of_nat (String.length (digits (a * 10 ^ 400 / b))) - 400.

(** Step 5 of [Number::toString]: integers [n], [k], [s] with
    [10^(k-1) <= s < 10^k], [s * 10^(n-k)] converting back to [x], and [k]
    as small as possible; among the [s] for that [k] the one closest to
    [x], the even one on a tie.  The candidates for a given [k] are the two
    [k]-digit decimals around [x].  Returns [(s, k, n)]; 17 digits always
    identify a double. *)
Fixpoint shortest (fuel : nat) (x : number) (a b n0 k : Z) : Z * Z * Z :=
  let t := n0 - k in
  let '(num, den) := if 0 <=? t then (a, b * 10 ^ t) else (a * 10 ^ (- t), b) in
  let lo := num / den in
  let hi := lo + 1 in
  let below := (lo, k, n0) in
  let above := if hi =? 10 ^ k then (10 ^ (k - 1), k, n0 + 1) else (hi, k, n0) in
  let dlo := num - lo * den in
  let dhi := hi * den - num in
  match fuel with
  | O => below
  | S fuel' =>
      if roundtrips x lo t && roundtrips x hi t then
        if dlo <? dhi then below
        else if dhi <? dlo then above
        else if Z.even lo then below else above
      else if roundtrips x lo t then below
      else if roundtrips x hi t then above
      else shortest fuel' x a b n0 (k + 1)
  end.

Definition shortest_digits (x : number) : Z * Z * Z :=
  let '(a, b) := fraction x in
  shortest 17 x a b (decimal_exponent x) 1.

(** Steps 6 to 12 of [Number::toString] for a positive finite Number. *)
Definition toString_positive (x : number) : string :=
  let '(s, k, n) := shortest_digits x in
  let ds := digits s in
  if (k <=? n) && (n <=? 21) then ds +:+ zeros (Z.to_nat (n - k))
  else if (0 <? n) && (n <=? 21) then
    substring 0 (Z.to_nat n) ds +:+ "." +:+ substring (Z.to_nat n) (Z.to_nat (k - n)) ds
  else if (-6 <? n) && (n <=? 0) then "0." +:+ zeros (Z.to_nat (- n)) +:+ ds
  else
    let e := n - 1 in
    let sign := if e <? 0 then "-" else "+" in
    if k =? 1 then ds +:+ "e" +:+ sign +:+ digits (Z.abs e)
    else substring 0 1 ds +:+ "." +:+ substring 1 (Z.to_nat (k - 1)) ds
         +:+ "e" +:+ sign +:+ digits (Z.abs e).

(** [String(x)], [`${x}`] and [x + ''] for a Number [x]. *)
Definition toString (x : number) : string :=
  match x with
  | S754_nan => "NaN"
  | S754_zero _ => "0"
  | S754_infinity false => "Infinity"
  | S754_infinity true => "-Infinity"
  | S754_finite s _ _ => (if s then "-" else "") +:+ toString_positive x
  end.

(** [x.toFixed(f)] for [0 <= f <= 100]. *)
Definition toFixed (x : number) (f : Z) : string :=
  match x with
  | S754_nan | S754_infinity _ => toString x
  | _ =>
      let s := if SFltb x (Number 0) then "-" else "" in
      let m :=
        if SFleb (Number (10 ^ 21)) (SFabs x) then toString (SFabs x)
        else
          let n := round_scaled x f in
          if f =? 0 then digits n
          else let '(a, b) := split_fraction n f in a +:+ "." +:+ b in
      s +:+ m
  end.

(** Groups of three digits separated by commas, from the right. *)
Fixpoint group_rev (l : list ascii) (i : nat) : list ascii :=
  match l with
  | nil => nil
  | c :: l' =>
      match i with
      | O => c :: group_rev l' 2
      | S i' =>
          match l' with
          | nil => c :: nil
          | _ => if (i' =? 0)%nat then c :: ","%char :: group_rev l' 3 else c :: group_rev l' i'
          end
      end
  end.

Definition grouped (ip : string) : string :=
  string_of_list_ascii (rev (group_rev (rev (list_ascii_of_string ip)) 3)).

Fixpoint strip_trailing_zeros_rev (l : list ascii) : list ascii :=
  match l with
  | "0"%char :: l' => strip_trailing_zeros_rev l'
  | _ => l
  end.

(** The fraction part of the en-US rendering: at most two digits, trailing
    zeros removed, with its leading point, or empty. *)
Definition fraction2 (b : string) : string :=
  match rev (strip_trailing_zeros_rev (rev (list_ascii_of_string b))) with
  | nil => ""
  | l => "." +:+ string_of_list_ascii l
  end.

(** The shortest decimal [s * 10^(n-k)] of [|x|] in hundredths, rounded
    half away from zero. *)
Definition round_hundredths (x : number) : Z :=
  let '(s, k, n) := shortest_digits x in
  let t := n - k + 2 in
  if 0 <=? t then s * 10 ^ t
  else (2 * s + 10 ^ (- t)) / (2 * 10 ^ (- t)).

(** [x.toLocaleString('en-US', { maximumFractionDigits: 2 })] as Node
    renders it: the engine hands the double to ICU, which takes the shortest
    decimal that reads back as [x], rounds it to two fraction digits (half
    away from zero), drops trailing fraction zeros and groups the integer
    digits by three. *)
Definition toLocaleString2 (x : number) : string :=
  match x with
  | S754_nan => "NaN"
  | S754_infinity false => "∞"
  | S754_infinity true => "-∞"
  | S754_zero s => if s then "-0" else "0"
  | S754_finite s _ _ =>
      let '(a, b) := split_fraction (round_hundredths x) 2 in
      (if s then "-" else "") +:+ grouped a +:+ fraction2 b
  end.

End Render.

Import Render.

(** [probabilityToOdds(probability)] *)
Definition probabilityToOdds (probability : number) : string :=
  if strict_eq probability (Number 0) then "impossible"
  else if strict_eq probability (Number 1) then "1 in 1"
  else "1 in " +:+ toLocaleString2 (fdiv (Number 1) probability).

(** ** Main analysis *)

(** [payouts[picks]?.[hits]]: [None] is [undefined]. *)
Definition payout_entry (payouts : gmap Z (gmap Z number)) (picks hits : Z) : option number :=
  match payouts !! picks with
  | None => None
  | Some row => row !! hits
  end.

(** [payouts[picks]?.[hits] || 0] *)
Definition payout_or_zero (payouts : gmap Z (gmap Z number)) (picks hits : Z) : number :=
  match payout_entry payouts picks hits with
  | Some v => if truthy v then v else Number 0
  | None => Number 0
  end.

(** One printed row of the per-pick table: the values bound in the body of
    the inner loop, before [padStart] and [padEnd] align the cells. *)
Record OutcomeRow : Type := {
  row_hits : Z;
  row_probability : number;
  row_probabilityPercent : string;
  row_odds : string;
  row_payout : number;
  row_evContribution : number;
  row_payoutStr : string;
  row_evStr : string
}.

Record DetailState : Type := {
  totalExpectedValue : number;
  hasAnyPayout : bool;
  printed : list OutcomeRow
}.

Definition detail_body (payouts : gmap Z (gmap Z number)) (picks hits : Z)
    (st : DetailState) : DetailState :=
  let probability := calculateProbability picks hits in
  let probabilityPercent := toFixed (fmul probability (Number 100)) 6 in
  let odds := probabilityToOdds probability in
  let payout := payout_or_zero payouts picks hits in
  let evContribution := fmul probability payout in
  let payoutStr := if gt payout (Number 0) then toString payout +:+ "x" else "-" in
  let evStr := if gt payout (Number 0) then toFixed evContribution 6 else "-" in
  {| totalExpectedValue := fadd (totalExpectedValue st) evContribution;
     hasAnyPayout := if gt payout (Number 0) then true else hasAnyPayout st;
     printed := printed st ++
       {| row_hits := hits; row_probability := probability;
          row_probabilityPercent := probabilityPercent; row_odds := odds;
          row_payout := payout; row_evContribution := evContribution;
          row_payoutStr := payoutStr; row_evStr := evStr |} :: nil |}.

(** What the first outer loop prints for one pick level: the rows, then the
    expected value, house edge and RTP lines. *)
Record PickDetail : Type := {
  pd_picks : Z;
  pd_rows : list OutcomeRow;
  pd_totalExpectedValue : number;
  pd_houseEdge : number;
  pd_rtp : number;
  pd_expectedValueStr : string;
  pd_houseEdgeStr : string;
  pd_rtpStr : string
}.

Definition analyze_pick (payouts : gmap Z (gmap Z number)) (picks : Z) : PickDetail :=
  let st := for_le 0 picks (detail_body payouts picks)
              {| totalExpectedValue := Number 0; hasAnyPayout := false; printed := nil |} in
  let houseEdge := fmul (fsub (Number 1) (totalExpectedValue st)) (Number 100) in
  let rtp := fmul (totalExpectedValue st) (Number 100) in
  {| pd_picks := picks; pd_rows := printed st;
     pd_totalExpectedValue := totalExpectedValue st;
     pd_houseEdge := houseEdge; pd_rtp := rtp;
     pd_expectedValueStr := toFixed (totalExpectedValue st) 6;
     pd_houseEdgeStr := toFixed houseEdge 2;
     pd_rtpStr := toFixed rtp 2 |}.

Record SummaryState : Type := {
  totalEV : number;
  maxPayout : number;
  bestWinOdds : number
}.

Definition summary_body (payouts : gmap Z (gmap Z number)) (picks hits : Z)
    (st : SummaryState) : SummaryState :=
  let prob := calculateProbability picks hits in
  let payout := payout_or_zero payouts picks hits in
  {| totalEV := fadd (totalEV st) (fmul prob payout);
     maxPayout := if gt payout (maxPayout st) then payout else maxPayout st;
     bestWinOdds := if gt payout (Number 0) then fadd (bestWinOdds st) prob else bestWinOdds st |}.

(** One line of the "summary by picks" table, cells unpadded. *)
Record PickSummary : Type := {
  ps_picks : Z;
  ps_totalEV : number;
  ps_houseEdge : number;
  ps_rtp : number;
  ps_maxPayout : number;
  ps_bestWinOdds : number;
  ps_totalEVStr : string;
  ps_houseEdgeStr : string;
  ps_rtpStr : string;
  ps_maxPayoutStr : string;
  ps_winOddsStr : string
}.

Definition summarize_pick (payouts : gmap Z (gmap Z number)) (picks : Z) : PickSummary :=
  let st := for_le 0 picks (summary_body payouts picks)
              {| totalEV := Number 0; maxPayout := Number 0; bestWinOdds := Number 0 |} in
  let houseEdge := fmul (fsub (Number 1) (totalEV st)) (Number 100) in
  let rtp := fmul (totalEV st) (Number 100) in
  let winOddsStr := "1 in " +:+ toFixed (fdiv (Number 1) (bestWinOdds st)) 2 in
  {| ps_picks := picks; ps_totalEV := totalEV st; ps_houseEdge := houseEdge;
     ps_rtp := rtp; ps_maxPayout := maxPayout st; ps_bestWinOdds := bestWinOdds st;
     ps_totalEVStr := toFixed (totalEV st) 6;
     ps_houseEdgeStr := toFixed houseEdge 2;
     ps_rtpStr := toFixed rtp 2;
     ps_maxPayoutStr := toString (maxPayout st) +:+ "x";
     ps_winOddsStr := winOddsStr |}.

(** [analyzeKeno(payouts)]: the per-pick tables, then the summary table,
    each for [picks = 1 .. 10]. *)
Definition analyzeKeno (payouts : gmap Z (gmap Z number)) : list PickDetail * list PickSummary :=
  (for_le 1 10 (fun picks acc => acc ++ analyze_pick payouts picks :: nil) nil,
   for_le 1 10 (fun picks acc => acc ++ summarize_pick payouts picks :: nil) nil).

(** ** Reference notions the properties are stated against *)

Module Reference.

(** [n!] *)
Fixpoint fact_Z (n : nat) : Z :=
  match n with
  | O => 1
  | S m => Z.of_nat n * fact_Z m
  end.

Definition math_factorial (n : Z) : Z := fact_Z (Z.to_nat n).

(** [C(n,k) = n! / (k! (n-k)!)] *)
Definition choose (n k : Z) : Z :=
  math_factorial n / (math_factorial k * math_factorial (n - k)).

(** Pascal's triangle, used to show that the division above is exact. *)
Fixpoint pascal (n k : nat) : Z :=
  match n, k with
  | _, O => 1
  | O, S _ => 0
  | S n', S k' => pascal n' k' + pascal n' k
  end.

(** The hit counts [0, 1, ..., picks] in ascending order. *)
Definition hits_range (picks : Z) : list Z :=
  map Z.of_nat (seq 0 (Z.to_nat (picks + 1))).

(** Sum of Numbers in list order, starting from [0], as a JS accumulation
    [acc += x] does it. *)
Definition fsum (l : list number) : number := fold_left fadd l (Number 0).

(** The exact hypergeometric probability [C(20,h) C(60,p-h) / C(80,p)]. *)
Definition exact_probability (picks hits : Z) : Q :=
  (choose NUMBERS_DRAWN hits * choose NUMBERS_NOT_DRAWN (picks - hits))
    # Z.to_pos (choose TOTAL_NUMBERS picks).

(** The integers [lo, lo+1, ..., hi]. *)
Definition Zrange (lo hi : Z) : list Z :=
  map (fun i => lo + Z.of_nat i) (seq 0 (Z.to_nat (hi + 1 - lo))).

(** Structural equality of doubles. *)
Definition same (x y : number) : bool :=
  match x, y with
  | S754_zero a, S754_zero b => Bool.eqb a b
  | S754_infinity a, S754_infinity b => Bool.eqb a b
  | S754_nan, S754_nan => true
  | S754_finite s m e, S754_finite s' m' e' => Bool.eqb s s' && Pos.eqb m m' && (e =? e')
  | _, _ => false
  end.

(** The Number nearest to the fraction [a / b] of two integers that are
    Numbers themselves: [ratio 38 10] is the Number [3.8], [ratio 3 4] is
    [0.75]. *)
Definition ratio (a b : Z) : number := fdiv (Number a) (Number b).

(** Number of characters after the first decimal point of a rendering. *)
Fixpoint fraction_digits (s : string) : nat :=
  match s with
  | EmptyString => 0
  | String c r => if Ascii.eqb c "." then String.length r else fraction_digits r
  end.

Fixpoint no_point (s : string) : bool :=
  match s with
  | EmptyString => true
  | String c r => negb (Ascii.eqb c ".") && no_point r
  end.

(** [totalEV] as the specification words it: the sum over [hits] in
    [0..picks] of [probability(picks, hits) * multiplier(picks, hits)]. *)
Definition expected_value (payouts : gmap Z (gmap Z number)) (picks : Z) : number :=
  fsum (map (fun hits => fmul (calculateProbability picks hits)
                              (payout_or_zero payouts picks hits))
            (hits_range picks)).

(** The total probability over [hits] in [0..picks], summed as Numbers. *)
Definition total_probability (picks : Z) : number :=
  fsum (map (calculateProbability picks) (hits_range picks)).

(** A payout table whose only entry pays 3.8x for 1 hit out of 1 pick. *)
Definition table_3_8 : gmap Z (gmap Z number) := {[ 1 := {[ 1 := ratio 38 10 ]} ]}.

(** Decision procedures for the finitely many pick levels. *)
Definition probability_ok (picks hits : Z) : bool :=
  negb (impossible_outcome picks hits)
  && same (calculateProbability picks hits)
          (fdiv (Number (choose NUMBERS_DRAWN hits * choose NUMBERS_NOT_DRAWN (picks - hits)))
                (Number (choose TOTAL_NUMBERS picks)))
  && match value (calculateProbability picks hits) with
     | Some q =>
         Qle_bool (Qabs (q - exact_probability picks hits))
                  (exact_probability picks hits * (1 # 2 ^ 53))
         && Qle_bool 0 q && Qle_bool q 1
     | None => false
     end.

Definition total_probability_ok (picks : Z) : bool :=
  match value (total_probability picks) with
  | Some q => Qle_bool (Qabs (q - 1)) (1 # 10 ^ 9)
  | None => false
  end
  && (fold_right Z.add 0
        (map (fun hits => choose NUMBERS_DRAWN hits * choose NUMBERS_NOT_DRAWN (picks - hits))
             (hits_range picks))
      =? choose TOTAL_NUMBERS picks).

Definition denominator_ok (picks hits : Z) : bool :=
  match int_value (binomial TOTAL_NUMBERS picks) with
  | Some d => (0 <? d) && (d =? choose TOTAL_NUMBERS picks)
  | None => false
  end
  && is_finite (calculateProbability picks hits).

Definition no_payout_ok (picks : Z) : bool :=
  let s := summarize_pick ∅ picks in
  let d := analyze_pick ∅ picks in
  same (ps_totalEV s) (Number 0) && same (ps_rtp s) (Number 0)
  && same (ps_houseEdge s) (Number 100)
  && same (pd_totalExpectedValue d) (Number 0) && same (pd_rtp d) (Number 0)
  && same (pd_houseEdge d) (Number 100)
  && String.eqb (ps_houseEdgeStr s) "100.00" && String.eqb (pd_houseEdgeStr d) "100.00".

End Reference.

Import Reference.

(** ** The CSV loader

    [parsePayoutsCsv] of [index.js], which [server.js] repeats line for line.
    The text of the file ([readFileSync(filePath, 'utf-8')]) is its input. *)

Module Csv.

(** A JS string is a sequence of UTF-16 code units. *)
Definition jsstring : Type := list N.

(** The JS string of an ASCII literal. *)
Definition units (s : string) : jsstring := map N_of_ascii (list_ascii_of_string s).

(** WhiteSpace and LineTerminator code units: what [trim], [parseInt] and
    [parseFloat] strip. *)
Definition is_space (c : N) : bool :=
  ((c =? 9) || (c =? 10) || (c =? 11) || (c =? 12) || (c =? 13) || (c =? 32)
   || (c =? 160) || (c =? 5760) || ((8192 <=? c) && (c <=? 8202))
   || (c =? 8232) || (c =? 8233) || (c =? 8239) || (c =? 8287)
   || (c =? 12288) || (c =? 65279))%N.

Fixpoint trim_start (s : jsstring) : jsstring :=
  match s with
  | c :: r => if is_space c then trim_start r else s
  | nil => nil
  end.

(** [s.trim()] *)
Definition trim (s : jsstring) : jsstring := rev (trim_start (rev (trim_start s))).

(** [s.split(sep)] for a separator of one code unit; never empty. *)
Fixpoint split_on (sep : N) (s : jsstring) : list jsstring :=
  match s with
  | nil => nil :: nil
  | c :: r =>
      if (c =? sep)%N then nil :: split_on sep r
      else match split_on sep r with
           | first :: rest => (c :: first) :: rest
           | nil => (c :: nil) :: nil
           end
  end.

Definition is_digit (c : N) : bool := ((48 <=? c) && (c <=? 57))%N.

(** The longest prefix of decimal digits, and what follows it. *)
Fixpoint span_digits (s : jsstring) : jsstring * jsstring :=
  match s with
  | c :: r => if is_digit c then let '(ds, rest) := span_digits r in (c :: ds, rest)
              else (nil, s)
  | nil => (nil, nil)
  end.

(** The integer a sequence of decimal digits denotes. *)
Definition decimal_value (ds : jsstring) : Z :=
  fold_left (fun acc c => 10 * acc + (Z.of_N c - 48)) ds 0.

(** A leading [-] or [+]: whether the sign is negative, and the rest. *)
Definition take_sign (s : jsstring) : bool * jsstring :=
  match s with
  | c :: r =>
      if (c =? 45)%N then (true, r)
      else if (c =? 43)%N then (false, r)
      else (false, s)
  | nil => (false, nil)
  end.

(** [parseInt(s, 10)] *)
Definition parseInt (s : jsstring) : number :=
  let '(neg, body) := take_sign (trim_start s) in
  let '(ds, _) := span_digits body in
  match ds with
  | nil => S754_nan
  | _ =>
      let mathInt := decimal_value ds in
      if mathInt =? 0 then S754_zero neg
      else Number (if neg then - mathInt else mathInt)
  end.

Fixpoint starts_with (prefix s : jsstring) : bool :=
  match prefix, s with
  | nil, _ => true
  | p :: prefix', c :: s' => (p =? c)%N && starts_with prefix' s'
  | _ :: _, nil => false
  end.

(** The optional [ExponentPart] at the head of [s]: its value, [0] when
    there is none. *)
Definition exponent_part (s : jsstring) : Z :=
  match s with
  | c :: r =>
      if ((c =? 101) || (c =? 69))%N then
        let '(neg, r') := take_sign r in
        let '(ds, _) := span_digits r' in
        match ds with
        | nil => 0
        | _ => if neg then - decimal_value ds else decimal_value ds
        end
      else 0
  | nil => 0
  end.

(** The longest prefix of [s] that is a [StrUnsignedDecimalLiteral] other
    than [Infinity], as [(digits, fraction length, exponent)]. *)
Definition unsigned_literal (s : jsstring) : option (jsstring * Z * Z) :=
  let '(d1, r1) := span_digits s in
  let integer :=
    match d1 with
    | nil => None
    | _ => Some (d1, 0, exponent_part r1)
    end in
  match r1 with
  | c :: r =>
      if (c =? 46)%N then
        let '(d2, r2) := span_digits r in
        match d1, d2 with
        | nil, nil => None
        | _, _ => Some (d1 ++ d2, Z.of_nat (List.length d2), exponent_part r2)
        end
      else integer
  | nil => integer
  end.

(** [parseFloat(s)] *)
Definition parseFloat (s : jsstring) : number :=
  let '(neg, body) := take_sign (trim_start s) in
  if starts_with (units "Infinity") body then S754_infinity neg
  else
    match unsigned_literal body with
    | None => S754_nan
    | Some (ds, flen, e) =>
        let m := decimal_value ds in
        if m =? 0 then S754_zero neg
        else
          let x := decimal_to_number m (e - flen) in
          if neg then SFopp x else x
    end.

Definition isNaN (x : number) : bool :=
  match x with
  | S754_nan => true
  | _ => false
  end.

Definition is_empty (s : jsstring) : bool :=
  match s with
  | nil => true
  | _ => false
  end.

(** [value && value.trim() !== ''] for a cell that exists. *)
Definition cell_present (value : jsstring) : bool :=
  negb (is_empty value) && negb (is_empty (trim value)).

(** The object [payouts[picks]] once the loop over [hitCol = 1 .. 11] is
    done with the cells of [row]. *)
Definition row_cells (row : list jsstring) : gmap Z number :=
  for_le 1 11
    (fun hitCol cells =>
       let hits := hitCol - 1 in
       match row !! Z.to_nat hitCol with
       | Some value =>
           if cell_present value then <[hits := parseFloat value]> cells else cells
       | None => cells
       end)
    ∅.

(** The body of the loop over the lines.  The property key of
    [payouts[picks]] is [String(picks)]. *)
Definition parse_line (payouts : gmap string (gmap Z number)) (line : jsstring)
    : gmap string (gmap Z number) :=
  let row := split_on 44 line in
  match row with
  | first :: _ =>
      if is_empty first then payouts
      else
        let picks := parseInt first in
        if isNaN picks then payouts
        else <[toString picks := row_cells row]> payouts
  | nil => payouts
  end.

(** [parsePayoutsCsv], from the text of the file. *)
Definition parsePayoutsCsv (content : jsstring) : gmap string (gmap Z number) :=
  let lines := split_on 10 (trim content) in
  for_lt 1 (Z.of_nat (List.length lines))
    (fun i payouts =>
       match lines !! Z.to_nat i with
       | Some line => parse_line payouts line
       | None => payouts
       end)
    ∅.

(** The parsed object as [analyzeKeno] reads it: [payouts[picks]] for the
    Numbers [picks = 1 .. 10] is the property [String(picks)]. *)
Definition by_picks (payouts : gmap string (gmap Z number)) : gmap Z (gmap Z number) :=
  foldr (fun picks acc =>
           match payouts !! toString (Number picks) with
           | Some row => <[picks := row]> acc
           | None => acc
           end)
        ∅ (Zrange 1 10).

End Csv.

Import Csv.

(** ** Further reference notions *)

Module Coverage.

(** The pairs that have a positive hypergeometric probability. *)
Definition in_support (picks hits : Z) : bool :=
  (0 <=? hits) && (hits <=? picks) && (hits <=? NUMBERS_DRAWN)
  && (picks - hits <=? NUMBERS_NOT_DRAWN).

(** The exact probability again, from the BigInt quotients of [binomial]. *)
Definition exact_from_quotients (picks hits : Z) : Q :=
  (binomial_quotient NUMBERS_DRAWN hits * binomial_quotient NUMBERS_NOT_DRAWN (picks - hits))
    # Z.to_pos (binomial_quotient TOTAL_NUMBERS picks).

Definition support_ok (picks hits : Z) : bool :=
  match value (calculateProbability picks hits) with
  | Some q =>
      negb (Qle_bool q 0) && Qle_bool q 1
      && Qle_bool (Qabs (q - exact_from_quotients picks hits))
                  (exact_from_quotients picks hits * (1 # 2 ^ 51))
  | None => false
  end.

Definition zero_over_zero_ok (d : Z) : bool :=
  same (fdiv (fmul (Number 0) (binomial NUMBERS_NOT_DRAWN d)) (Number 0)) S754_nan.

Definition zero_times_ok (d : Z) : bool :=
  same (fmul (Number 0) (binomial NUMBERS_NOT_DRAWN d)) (Number 0).

Definition zero_over_ok (picks : Z) : bool :=
  same (fdiv (Number 0) (binomial TOTAL_NUMBERS picks)) (Number 0).


(** The row the per-pick table prints for [hits]. *)
Definition row_of (payouts : gmap Z (gmap Z number)) (picks hits : Z) : OutcomeRow :=
  let probability := calculateProbability picks hits in
  let payout := payout_or_zero payouts picks hits in
  {| row_hits := hits; row_probability := probability;
     row_probabilityPercent := toFixed (fmul probability (Number 100)) 6;
     row_odds := probabilityToOdds probability;
     row_payout := payout; row_evContribution := fmul probability payout;
     row_payoutStr := if gt payout (Number 0) then toString payout +:+ "x" else "-";
     row_evStr := if gt payout (Number 0) then toFixed (fmul probability payout) 6 else "-" |}.

(** A summary line repeats the figures of its per-pick table. *)
Definition same_figures (d : PickDetail) (s : PickSummary) : Prop :=
  pd_picks d = ps_picks s
  /\ pd_totalExpectedValue d = ps_totalEV s
  /\ pd_houseEdge d = ps_houseEdge s /\ pd_rtp d = ps_rtp s
  /\ pd_expectedValueStr d = ps_totalEVStr s
  /\ pd_houseEdgeStr d = ps_houseEdgeStr s /\ pd_rtpStr d = ps_rtpStr s.

(** Whether the table pays anything for [hits] out of [picks]. *)
Definition pays (payouts : gmap Z (gmap Z number)) (picks hits : Z) : bool :=
  gt (payout_or_zero payouts picks hits) (Number 0).

(** All lists of [n] booleans. *)
Fixpoint all_masks (n : nat) : list (list bool) :=
  match n with
  | O => nil :: nil
  | S n' => flat_map (fun m => (true :: m) :: (false :: m) :: nil) (all_masks n')
  end.

(** The Numbers of [ps] selected by [mask], added up in list order. *)
Definition selected_sum (ps : list number) (mask : list bool) : number :=
  fsum (map fst (List.filter snd (combine ps mask))).

(** For every choice of paying hit counts out of [0..picks]: with none the
    sum is [0]; otherwise it is in [(0, 1]] and its inverse prints as a
    finite figure. *)
Definition win_sums_ok (picks : Z) : bool :=
  let ps := map (calculateProbability picks) (hits_range picks) in
  forallb
    (fun mask =>
       let w := selected_sum ps mask in
       if existsb id mask then
         match value w, value (fdiv (Number 1) w) with
         | Some q, Some r => negb (Qle_bool q 0) && Qle_bool q 1 && Qle_bool 1 r
         | _, _ => false
         end
         && negb (String.eqb (toFixed (fdiv (Number 1) w) 2) "Infinity")
       else same w (Number 0))
    (all_masks (List.length ps)).

(** The lines of the file after the header line. *)
Definition data_lines (content : jsstring) : list jsstring :=
  tail (split_on 10 (trim content)).

(** The property key a line is stored under: [String(parseInt(row[0]))]
    when the first cell is not empty and starts a number. *)
Definition line_key (line : jsstring) : option string :=
  match split_on 44 line with
  | first :: _ =>
      if is_empty first then None
      else if isNaN (parseInt first) then None
      else Some (toString (parseInt first))
  | nil => None
  end.

(** The last of [lines] stored under [key]. *)
Definition last_with_key (key : string) (lines : list jsstring) : option jsstring :=
  last (List.filter (fun line => bool_decide (line_key line = Some key)) lines).

(** The multiplier a row of cells holds for [hits]: the Number in column
    [hits + 1], for [hits] in [0..10], unless the cell is missing, empty
    or blank. *)
Definition cell_value (row : list jsstring) (hits : Z) : option number :=
  if (0 <=? hits) && (hits <=? 10) then
    match row !! Z.to_nat (hits + 1) with
    | Some value => if cell_present value then Some (parseFloat value) else None
    | None => None
    end
  else None.

(** [cells] with the code unit [c] appended to its last cell. *)
Fixpoint append_to_last (c : N) (cells : list jsstring) : list jsstring :=
  match cells with
  | nil => nil
  | cell :: nil => (cell ++ c :: nil) :: nil
  | cell :: rest => cell :: append_to_last c rest
  end.

End Coverage.

Import Coverage.


(** ** Generic facts *)

Lemma same_eq (x y : number) : same x y = true -> x = y.
Proof.
  destruct x, y; simpl; try discriminate; intros H.
  - apply Bool.eqb_prop in H. congruence.
  - apply Bool.eqb_prop in H. congruence.
  - reflexivity.
  - apply andb_prop in H as [H He]. apply andb_prop in H as [Hs Hm].
    apply Bool.eqb_prop in Hs. apply Pos.eqb_eq in Hm. apply Z.eqb_eq in He.
    congruence.
Qed.

Lemma Zrange_In (lo hi i : Z) : lo <= i <= hi -> In i (Zrange lo hi).
Proof.
  intros H. unfold Zrange. apply in_map_iff.
  exists (Z.to_nat (i - lo)). split; [lia|].
  apply in_seq. lia.
Qed.

Lemma Zrange_forallb (f : Z -> bool) (lo hi : Z) :
  forallb f (Zrange lo hi) = true -> forall i, lo <= i <= hi -> f i = true.
Proof.
  intros H i Hi. rewrite forallb_forall in H. apply H, Zrange_In, Hi.
Qed.

Section Loops.
Context {St : Type}.

Lemma for_loop_ext (f g : Z -> St -> St) :
  (forall i s, f i s = g i s) ->
  forall count i s, for_loop count i f s = for_loop count i g s.
Proof.
  intros Hfg count. induction count as [|c IH]; intros i s; simpl.
  - reflexivity.
  - rewrite Hfg. apply IH.
Qed.

(** A loop that only accumulates is a left fold over the indices. *)
Lemma for_loop_fold_left (body : Z -> St -> St) :
  forall count (a : nat) s,
    for_loop count (Z.of_nat a) body s
    = fold_left (fun acc i => body i acc) (map Z.of_nat (seq a count)) s.
Proof.
  induction count as [|c IH]; intros a s; simpl.
  - reflexivity.
  - replace (Z.of_nat a + 1) with (Z.of_nat (S a)) by lia. apply IH.
Qed.

(** A projection of the loop state that the body updates on its own. *)
Lemma for_loop_project {A : Type} (proj : St -> A) (body : Z -> St -> St)
    (step : Z -> A -> A) :
  (forall i s, proj (body i s) = step i (proj s)) ->
  forall count i s, proj (for_loop count i body s) = for_loop count i step (proj s).
Proof.
  intros Hstep count. induction count as [|c IH]; intros i s; simpl.
  - reflexivity.
  - rewrite IH, Hstep. reflexivity.
Qed.
End Loops.

(** ** Exact combinatorics *)

Lemma fact_Z_pos (n : nat) : 0 < fact_Z n.
Proof. induction n as [|n IH]; [reflexivity|]. change (0 < Z.of_nat (S n) * fact_Z n). lia. Qed.

Lemma fact_Z_succ (n : nat) : fact_Z (S n) = Z.of_nat (S n) * fact_Z n.
Proof. reflexivity. Qed.

Lemma factorial_loop (c m : nat) :
  for_loop c (Z.of_nat m + 1) (fun i result => result * i) (fact_Z m) = fact_Z (m + c).
Proof.
  revert m. induction c as [|c IH]; intros m; simpl for_loop.
  - f_equal. lia.
  - replace (fact_Z m * (Z.of_nat m + 1)) with (fact_Z (S m))
      by (rewrite fact_Z_succ; lia).
    replace (Z.of_nat m + 1 + 1) with (Z.of_nat (S m) + 1) by lia.
    rewrite IH. f_equal. lia.
Qed.

(** [factorial] is [n!], and [1] below [2]. *)
Lemma factorial_correct (n : Z) : factorial n = math_factorial n.
Proof.
  unfold factorial, math_factorial.
  destruct (Z.leb_spec n 1) as [H|H].
  - assert (Hn : Z.to_nat n = 0%nat \/ Z.to_nat n = 1%nat) by lia.
    destruct Hn as [-> | ->]; reflexivity.
  - unfold for_le. change 2 with (Z.of_nat 1 + 1). change 1 with (fact_Z 1) at 3.
    rewrite factorial_loop. f_equal. lia.
Qed.

Lemma falling_loop (N c j : nat) (acc : Z) :
  (j + c <= N)%nat ->
  acc * fact_Z (N - j) = fact_Z N ->
  for_loop c (Z.of_nat j) (fun i numerator => numerator * (Z.of_nat N - i)) acc
    * fact_Z (N - j - c) = fact_Z N.
Proof.
  revert j acc. induction c as [|c IH]; intros j acc Hle Hacc; simpl for_loop.
  - rewrite Nat.sub_0_r. exact Hacc.
  - replace (Z.of_nat j + 1) with (Z.of_nat (S j)) by lia.
    replace (N - j - S c)%nat with (N - S j - c)%nat by lia.
    apply IH; [lia|].
    rewrite <- Hacc.
    replace (N - j)%nat with (S (N - S j)) by lia.
    rewrite fact_Z_succ. rewrite Nat2Z.inj_succ, Nat2Z.inj_sub by lia. rewrite Nat2Z.inj_succ. lia.
Qed.

Lemma choose_sym (n k : Z) : 0 <= k <= n -> choose n k = choose n (n - k).
Proof.
  intros H. unfold choose. replace (n - (n - k)) with k by lia.
  f_equal. apply Z.mul_comm.
Qed.

(** The falling product over [k!] is [n! / (k! (n-k)!)]. *)
Lemma falling_quotient (n k : Z) :
  0 <= k <= n ->
  Z.quot (for_lt 0 k (fun i numerator => numerator * (n - i)) 1) (factorial k) = choose n k.
Proof.
  intros H. rewrite factorial_correct. unfold for_lt, choose, math_factorial.
  set (N := Z.to_nat n). set (K := Z.to_nat k).
  assert (HK : (K <= N)%nat) by lia.
  pose proof (falling_loop N K 0 1 ltac:(lia) ltac:(rewrite Nat.sub_0_r; lia)) as Hf.
  replace (Z.to_nat (k - 0)) with K by lia.
  replace (Z.to_nat (n - k)) with (N - 0 - K)%nat by lia.
  replace n with (Z.of_nat N) by lia. change 0 with (Z.of_nat 0) at 1.
  set (num := for_loop K (Z.of_nat 0) _ 1) in *.
  pose proof (fact_Z_pos K) as HKp. pose proof (fact_Z_pos (N - 0 - K)) as HNKp.
  pose proof (fact_Z_pos N) as HNp.
  assert (Hnum : 0 <= num) by nia.
  rewrite Z.quot_div_nonneg by lia.
  rewrite <- Hf. rewrite Z.div_mul_cancel_r by lia. reflexivity.
Qed.

Lemma binomial_quotient_correct (n k : Z) :
  0 <= k <= n -> binomial_quotient n k = choose n k.
Proof.
  intros H. unfold binomial_quotient. cbv zeta.
  destruct (Z.gtb_spec k (n - k)) as [Hgt|Hle].
  - rewrite falling_quotient by lia. symmetry. apply choose_sym. lia.
  - apply falling_quotient. lia.
Qed.

(** The quotient [n! / (k! (n-k)!)] is exact: it is Pascal's number. *)
Lemma pascal_above (n k : nat) : (n < k)%nat -> pascal n k = 0.
Proof.
  revert k. induction n as [|n IH]; intros k Hk; destruct k as [|k]; try lia; simpl.
  - reflexivity.
  - rewrite !IH by lia. reflexivity.
Qed.

Lemma pascal_factorials (n k : nat) :
  (k <= n)%nat -> pascal n k * (fact_Z k * fact_Z (n - k)) = fact_Z n.
Proof.
  revert k. induction n as [|n IH]; intros k Hk.
  - replace k with 0%nat by lia. reflexivity.
  - destruct k as [|k].
    + simpl pascal. rewrite Nat.sub_0_r. change (fact_Z 0) with 1. lia.
    + change (pascal (S n) (S k)) with (pascal n k + pascal n (S k)).
      destruct (Nat.eq_dec k n) as [->|Hne].
      * rewrite (pascal_above n (S n)) by lia. rewrite Nat.sub_diag.
        pose proof (IH n ltac:(lia)) as IHn. rewrite Nat.sub_diag in IHn.
        rewrite (fact_Z_succ n). change (fact_Z 0) with 1 in *. nia.
      * pose proof (IH k ltac:(lia)) as IH1. pose proof (IH (S k) ltac:(lia)) as IH2.
        replace (S n - S k)%nat with (n - k)%nat by lia.
        replace (n - k)%nat with (S (n - S k)) in * by lia.
        rewrite (fact_Z_succ n).
        rewrite (fact_Z_succ k) in *. rewrite (fact_Z_succ (n - S k)) in *.
        set (a := fact_Z k) in *. set (b := fact_Z (n - S k)) in *.
        replace (Z.of_nat (S n)) with (Z.of_nat (S k) + Z.of_nat (S (n - S k))) by lia.
        nia.
Qed.

Lemma choose_exact (n k : Z) :
  0 <= k <= n ->
  choose n k * (math_factorial k * math_factorial (n - k)) = math_factorial n.
Proof.
  intros H. unfold choose, math_factorial.
  replace (Z.to_nat (n - k)) with (Z.to_nat n - Z.to_nat k)%nat by lia.
  pose proof (pascal_factorials (Z.to_nat n) (Z.to_nat k) ltac:(lia)) as Hp.
  pose proof (fact_Z_pos (Z.to_nat k)). pose proof (fact_Z_pos (Z.to_nat n - Z.to_nat k)).
  rewrite <- Hp at 1. rewrite Z.div_mul by lia. exact Hp.
Qed.

(** ** Integers below [2^53] are Numbers *)

Lemma digits2_pos_lower (p : positive) : 2 ^ (Z.pos (digits2_pos p) - 1) <= Z.pos p.
Proof.
  induction p as [p IH|p IH|]; simpl digits2_pos.
  - rewrite Pos2Z.inj_succ. replace (Z.succ (Z.pos (digits2_pos p)) - 1)
      with (Z.succ (Z.pos (digits2_pos p) - 1)) by lia.
    rewrite Z.pow_succ_r by lia. lia.
  - rewrite Pos2Z.inj_succ. replace (Z.succ (Z.pos (digits2_pos p)) - 1)
      with (Z.succ (Z.pos (digits2_pos p) - 1)) by lia.
    rewrite Z.pow_succ_r by lia. lia.
  - reflexivity.
Qed.

Lemma digits2_pos_shift (p k : positive) :
  digits2_pos (Pos.iter xO p k) = (digits2_pos p + k)%positive.
Proof.
  induction k as [|k IH] using Pos.peano_ind.
  - simpl. lia.
  - rewrite Pos.iter_succ. simpl digits2_pos. rewrite IH. lia.
Qed.

Lemma iter_xO_pow (p k : positive) : Z.pos (Pos.iter xO p k) = Z.pos p * 2 ^ Z.pos k.
Proof.
  induction k as [|k IH] using Pos.peano_ind.
  - simpl. lia.
  - rewrite Pos.iter_succ, Pos2Z.inj_succ, Z.pow_succ_r by lia.
    rewrite Pos2Z.inj_xO, IH. lia.
Qed.

Lemma binary_round_aux_canonical (s : bool) (m : positive) (e : Z) :
  Z.pos (digits2_pos m) = 53 -> -1074 <= e <= 971 ->
  binary_round_aux prec emax s (Z.pos m) e loc_Exact = S754_finite s m e.
Proof.
  intros Hd He.
  assert (Hshr : shr_fexp prec emax (Z.pos m) e loc_Exact
                 = ({| shr_m := Z.pos m; shr_r := false; shr_s := false |}, e)).
  { unfold shr_fexp, Zdigits2, fexp, SpecFloat.emin, prec, emax. rewrite Hd.
    replace (Z.max (53 + e - 53) (3 - 1024 - 53) - e) with 0 by lia.
    reflexivity. }
  unfold binary_round_aux. rewrite Hshr. cbn [shr_m loc_of_shr_record round_nearest_even].
  rewrite Hshr. cbn [shr_m].
  unfold prec, emax. destruct (Z.leb_spec e (1024 - 53)); [reflexivity|lia].
Qed.

(** [Number(z)] is [z] itself for [0 <= z < 2^53]. *)
Lemma Number_exact (z : Z) : 0 <= z < 2 ^ 53 -> int_value (Number z) = Some z.
Proof.
  intros Hz. destruct z as [|p|p]; [reflexivity| |lia].
  unfold Number, binary_normalize, binary_round.
  pose proof (digits2_pos_lower p) as Hlow.
  assert (Hd : Z.pos (digits2_pos p) <= 53).
  { destruct (Z.le_gt_cases (Z.pos (digits2_pos p)) 53) as [H|H]; [exact H|].
    assert (2 ^ 53 <= 2 ^ (Z.pos (digits2_pos p) - 1)) by (apply Z.pow_le_mono_r; lia).
    lia. }
  unfold shl_align, fexp, SpecFloat.emin, prec, emax.
  replace (Z.max (Z.pos (digits2_pos p) + 0 - 53) (3 - 1024 - 53) - 0)
    with (Z.pos (digits2_pos p) - 53) by lia.
  replace (Z.max (Z.pos (digits2_pos p) + 0 - 53) (3 - 1024 - 53))
    with (Z.pos (digits2_pos p) - 53) by lia.
  destruct (Z.pos (digits2_pos p) - 53) as [|q|q] eqn:Hq.
  - fold prec emax. rewrite binary_round_aux_canonical by lia.
    simpl. f_equal. lia.
  - lia.
  - fold prec emax. rewrite binary_round_aux_canonical.
    + unfold int_value. replace (0 <=? Z.neg q) with false by reflexivity.
      rewrite iter_xO_pow. change (- Z.neg q) with (Z.pos q).
      rewrite Z.mod_mul by lia. rewrite Z.eqb_refl.
      rewrite Z.div_mul by lia. reflexivity.
    + rewrite digits2_pos_shift. lia.
    + lia.
Qed.

(** ** [binomial] *)

Lemma binomial_out_of_range (n k : Z) : k < 0 \/ k > n -> binomial n k = Number 0.
Proof.
  intros H. unfold binomial.
  destruct (Z.ltb_spec k 0), (Z.gtb_spec k n); simpl; try reflexivity; lia.
Qed.

Lemma binomial_edge (n k : Z) : 0 <= k <= n -> k = 0 \/ k = n -> binomial n k = Number 1.
Proof.
  intros Hr He. unfold binomial.
  destruct (Z.ltb_spec k 0), (Z.gtb_spec k n); simpl; try lia.
  destruct (Z.eqb_spec k 0), (Z.eqb_spec k n); simpl; try reflexivity; lia.
Qed.

Lemma binomial_inside (n k : Z) : 0 < k < n -> binomial n k = Number (choose n k).
Proof.
  intros H. unfold binomial.
  destruct (Z.ltb_spec k 0), (Z.gtb_spec k n); simpl; try lia.
  destruct (Z.eqb_spec k 0), (Z.eqb_spec k n); simpl; try lia.
  rewrite binomial_quotient_correct by lia. reflexivity.
Qed.

Lemma choose_nonneg (n k : Z) : 0 <= choose n k.
Proof.
  unfold choose, math_factorial. apply Z.div_pos.
  - pose proof (fact_Z_pos (Z.to_nat n)). lia.
  - pose proof (fact_Z_pos (Z.to_nat k)). pose proof (fact_Z_pos (Z.to_nat (n - k))). lia.
Qed.

(** C2, as the claim states it, fails: [binomial(62, 31)] is not the exact
    integer [C(62,31) = 465428353255261088]; the conversion of the BigInt
    quotient to a Number rounds it to [465428353255261056]. *)
Lemma binomial_62_31_rounded :
  choose 62 31 = 465428353255261088
  /\ int_value (binomial 62 31) = Some 465428353255261056
  /\ int_value (binomial 62 31) <> Some (choose 62 31).
Proof.
  split; [vm_compute; reflexivity|].
  split; [vm_compute; reflexivity|].
  vm_compute. discriminate.
Qed.

(** C2 (amended): for all integers [n] and [k], [binomial(n, k)] is [0] if
    [k < 0] or [k > n], else [1] if [k = 0] or [k = n], and otherwise the
    Number nearest to the integer [C(n,k) = n!/(k!(n-k)!)] (an exact
    quotient), which is that integer itself whenever [C(n,k) < 2^53]; in
    particular [binomial(80, 10) = 1646492110120]. *)
Theorem binomial_spec (n k : Z) :
  (k < 0 \/ k > n -> binomial n k = Number 0)
  /\ (0 <= k <= n -> k = 0 \/ k = n -> binomial n k = Number 1)
  /\ (0 < k < n ->
        binomial n k = Number (choose n k)
        /\ choose n k * (math_factorial k * math_factorial (n - k)) = math_factorial n
        /\ (choose n k < 2 ^ 53 -> int_value (binomial n k) = Some (choose n k)))
  /\ int_value (binomial 80 10) = Some 1646492110120.
Proof.
  split; [apply binomial_out_of_range|].
  split; [apply binomial_edge|].
  split; [|vm_compute; reflexivity].
  intros H. split; [apply binomial_inside, H|].
  split; [apply choose_exact; lia|].
  intros Hsmall. rewrite binomial_inside by exact H.
  apply Number_exact. split; [apply choose_nonneg|exact Hsmall].
Qed.

Lemma binomial_spec_witness :
  binomial 80 81 = Number 0
  /\ binomial 80 80 = Number 1
  /\ int_value (binomial 60 7) = Some (choose 60 7).
Proof.
  split; [exact (proj1 (binomial_spec 80 81) ltac:(lia))|].
  split; [exact (proj1 (proj2 (binomial_spec 80 80)) ltac:(lia) ltac:(lia))|].
  destruct (proj1 (proj2 (proj2 (binomial_spec 60 7))) ltac:(lia)) as (_ & _ & H).
  apply H. vm_compute. reflexivity.
Defined.

(** C9: for all integers [0 <= k <= n], [binomial(n, k) = binomial(n, n-k)]. *)
Theorem binomial_symmetry (n k : Z) : 0 <= k <= n -> binomial n k = binomial n (n - k).
Proof.
  intros H.
  destruct (Z.eq_dec k 0) as [->|Hk0].
  - rewrite !binomial_edge by lia. reflexivity.
  - destruct (Z.eq_dec k n) as [->|Hkn].
    + rewrite !binomial_edge by lia. reflexivity.
    + rewrite !binomial_inside by lia. f_equal. apply choose_sym. lia.
Qed.

Lemma binomial_symmetry_witness : binomial 80 10 = binomial 80 (80 - 10).
Proof. apply (binomial_symmetry 80 10). lia. Defined.

(** ** [calculateProbability] *)

Lemma guard_returns_zero (picks hits : Z) :
  impossible_outcome picks hits = true ->
  calculateProbability_calls picks hits = (Number 0, nil).
Proof. intros H. unfold calculateProbability_calls. rewrite H. reflexivity. Qed.

Lemma all_probabilities_ok :
  forallb (fun picks => forallb (probability_ok picks) (Zrange 0 picks)) (Zrange 1 10) = true.
Proof. vm_compute. reflexivity. Qed.

Lemma probability_ok_in_range (picks hits : Z) :
  1 <= picks <= 10 -> 0 <= hits <= picks -> probability_ok picks hits = true.
Proof.
  intros Hp Hh.
  pose proof (Zrange_forallb _ _ _ all_probabilities_ok picks Hp) as H.
  exact (Zrange_forallb _ _ _ H hits Hh).
Qed.

(** C3: for every [picks] in [1..10] and [hits] in [0..picks] no guard
    applies, and [calculateProbability(picks, hits)] is the Number quotient of
    the exact integers [C(20,hits) * C(60,picks-hits)] and [C(80,picks)]: the
    double within relative error [2^-53] of the exact rational, and in
    [[0,1]].  [calculateProbability(1, 0)] is exactly [0.75] and
    [calculateProbability(1, 1)] exactly [0.25]. *)
Theorem calculateProbability_hypergeometric :
  (forall picks hits : Z,
      1 <= picks <= 10 -> 0 <= hits <= picks ->
      impossible_outcome picks hits = false
      /\ calculateProbability picks hits
         = fdiv (Number (choose NUMBERS_DRAWN hits * choose NUMBERS_NOT_DRAWN (picks - hits)))
                (Number (choose TOTAL_NUMBERS picks))
      /\ exists q : Q,
           value (calculateProbability picks hits) = Some q
           /\ (Qabs (q - exact_probability picks hits)
               <= exact_probability picks hits * (1 # 2 ^ 53))%Q
           /\ (0 <= q)%Q /\ (q <= 1)%Q)
  /\ (exists q, value (calculateProbability 1 0) = Some q /\ (q == 3 # 4)%Q)
  /\ (exists q, value (calculateProbability 1 1) = Some q /\ (q == 1 # 4)%Q).
Proof.
  split.
  - intros picks hits Hp Hh.
    pose proof (probability_ok_in_range picks hits Hp Hh) as H.
    unfold probability_ok in H.
    apply andb_prop in H as [H Hv]. apply andb_prop in H as [Hg Hs].
    split; [now apply negb_true_iff in Hg|].
    split; [now apply same_eq|].
    destruct (value (calculateProbability picks hits)) as [q|]; [|discriminate].
    exists q. apply andb_prop in Hv as [Hv H1]. apply andb_prop in Hv as [He H0].
    split; [reflexivity|].
    split; [now apply Qle_bool_iff|].
    split; now apply Qle_bool_iff.
  - split; eexists; (split; [vm_compute; reflexivity|reflexivity]).
Qed.

Lemma calculateProbability_hypergeometric_witness :
  calculateProbability 10 10 = fdiv (Number 184756) (Number 1646492110120).
Proof.
  destruct calculateProbability_hypergeometric as [H _].
  destruct (H 10 10) as (_ & Heq & _); [lia|lia|].
  rewrite Heq. vm_compute. reflexivity.
Defined.

(** C4: for any integers [picks] and [hits], when [hits > picks],
    [hits > 20] or [picks - hits > 60], [calculateProbability] returns
    exactly [0] and has called [binomial] not once. *)
Theorem calculateProbability_guard (picks hits : Z) :
  hits > picks \/ hits > 20 \/ picks - hits > 60 ->
  calculateProbability picks hits = S754_zero false
  /\ snd (calculateProbability_calls picks hits) = nil.
Proof.
  intros H.
  assert (Hg : impossible_outcome picks hits = true).
  { unfold impossible_outcome, NUMBERS_NOT_DRAWN, NUMBERS_DRAWN, TOTAL_NUMBERS.
    destruct (Z.gtb_spec hits picks), (Z.gtb_spec hits 20),
      (Z.gtb_spec (picks - hits) (80 - 20)); simpl; try reflexivity; lia. }
  unfold calculateProbability. rewrite guard_returns_zero by exact Hg.
  split; reflexivity.
Qed.

Lemma calculateProbability_guard_witness :
  calculateProbability 5 6 = S754_zero false
  /\ calculateProbability 30 21 = S754_zero false
  /\ calculateProbability 70 5 = S754_zero false.
Proof.
  split; [apply (calculateProbability_guard 5 6); lia|].
  split; [apply (calculateProbability_guard 30 21); lia|].
  apply (calculateProbability_guard 70 5); lia.
Defined.

Lemma all_totals_ok : forallb total_probability_ok (Zrange 1 10) = true.
Proof. vm_compute. reflexivity. Qed.

(** C5: for every [picks] in [1..10] the probabilities of [hits = 0..picks],
    added up as Numbers in ascending order, are within [1e-9] of [1]; the
    exact counts behind them partition the [C(80,picks)] tickets. *)
Theorem probabilities_sum_to_one (picks : Z) :
  1 <= picks <= 10 ->
  (exists q : Q,
      value (total_probability picks) = Some q /\ (Qabs (q - 1) <= 1 # 10 ^ 9)%Q)
  /\ fold_right Z.add 0
       (map (fun hits => choose NUMBERS_DRAWN hits * choose NUMBERS_NOT_DRAWN (picks - hits))
            (hits_range picks))
     = choose TOTAL_NUMBERS picks.
Proof.
  intros Hp.
  pose proof (Zrange_forallb _ _ _ all_totals_ok picks Hp) as H.
  unfold total_probability_ok in H. apply andb_prop in H as [Hq Hz].
  split; [|now apply Z.eqb_eq].
  destruct (value (total_probability picks)) as [q|]; [|discriminate].
  exists q. split; [reflexivity|now apply Qle_bool_iff].
Qed.

Lemma probabilities_sum_to_one_witness :
  exists q : Q, value (total_probability 10) = Some q /\ (Qabs (q - 1) <= 1 # 10 ^ 9)%Q.
Proof. apply (probabilities_sum_to_one 10). lia. Defined.

Lemma all_denominators_ok :
  forallb (fun picks => forallb (denominator_ok picks) (Zrange 0 picks)) (Zrange 1 10) = true.
Proof. vm_compute. reflexivity. Qed.

(** C10: for every integer [1 <= picks <= 10] and [hits >= 0],
    [calculateProbability] does not divide by zero: either the guard
    returns [0] before the division, or the divisor [C(80, picks)] is a
    positive integer; in both cases the result is a finite Number. *)
Theorem calculateProbability_finite (picks hits : Z) :
  1 <= picks <= 10 -> 0 <= hits ->
  ((impossible_outcome picks hits = true /\ calculateProbability picks hits = Number 0)
   \/ (impossible_outcome picks hits = false
       /\ exists d : Z,
            int_value (binomial TOTAL_NUMBERS picks) = Some d
            /\ 0 < d /\ d = choose TOTAL_NUMBERS picks))
  /\ is_finite (calculateProbability picks hits) = true.
Proof.
  intros Hp Hh.
  destruct (Z_le_gt_dec hits picks) as [Hle|Hgt].
  - pose proof (Zrange_forallb _ _ _ all_denominators_ok picks Hp) as H.
    pose proof (Zrange_forallb _ _ _ H hits (conj Hh Hle)) as Hd.
    unfold denominator_ok in Hd. apply andb_prop in Hd as [Hd Hfin].
    split; [|exact Hfin]. right.
    pose proof (probability_ok_in_range picks hits Hp (conj Hh Hle)) as Hok.
    unfold probability_ok in Hok.
    apply andb_prop in Hok as [Hok _]. apply andb_prop in Hok as [Hg _].
    apply negb_true_iff in Hg. split; [exact Hg|].
    destruct (int_value (binomial TOTAL_NUMBERS picks)) as [d|]; [|discriminate].
    exists d. apply andb_prop in Hd as [Hpos Heq].
    split; [reflexivity|]. split; [now apply Z.ltb_lt|now apply Z.eqb_eq].
  - assert (Hg : impossible_outcome picks hits = true).
    { unfold impossible_outcome. destruct (Z.gtb_spec hits picks); [reflexivity|lia]. }
    unfold calculateProbability. rewrite guard_returns_zero by exact Hg.
    split; [left; split; [exact Hg|reflexivity]|reflexivity].
Qed.

Lemma calculateProbability_finite_witness :
  is_finite (calculateProbability 10 3) = true /\ is_finite (calculateProbability 4 25) = true.
Proof.
  split.
  - apply (calculateProbability_finite 10 3); lia.
  - apply (calculateProbability_finite 4 25); lia.
Defined.

(** ** Renderings have at most two fraction digits *)

Section Rendering.

Lemma no_point_In (s : string) :
  no_point s = true <-> ~ In "."%char (list_ascii_of_string s).
Proof.
  induction s as [|c r IH]; simpl.
  - split; [intros _ []|reflexivity].
  - rewrite andb_true_iff, negb_true_iff, Ascii.eqb_neq, IH.
    split; [intros [Hc Hr] [Heq|Hin]; [congruence|contradiction]|].
    intros H. split; [intros ->|intros Hin]; apply H; [left; reflexivity|right; exact Hin].
Qed.

Lemma no_point_app (s1 s2 : string) :
  no_point (s1 +:+ s2) = no_point s1 && no_point s2.
Proof.
  induction s1 as [|c r IH]; simpl; [reflexivity|].
  rewrite IH. apply andb_assoc.
Qed.

Lemma fraction_digits_app (s1 s2 : string) :
  no_point s1 = true -> fraction_digits (s1 +:+ s2) = fraction_digits s2.
Proof.
  induction s1 as [|c r IH]; simpl; [reflexivity|].
  intros H. apply andb_prop in H as [Hc Hr].
  apply negb_true_iff in Hc. rewrite Hc. apply IH, Hr.
Qed.

Lemma no_point_uint (d : Decimal.uint) : no_point (NilEmpty.string_of_uint d) = true.
Proof. induction d; simpl; auto. Qed.

Lemma no_point_digits (n : Z) : no_point (digits n) = true.
Proof.
  unfold digits, NilZero.string_of_uint.
  destruct (N.to_uint (Z.to_N n)) eqn:E; try reflexivity;
    rewrite <- E; apply no_point_uint.
Qed.

Lemma no_point_zeros (k : nat) : no_point (zeros k) = true.
Proof. induction k; simpl; auto. Qed.

Lemma no_point_substring (s : string) :
  no_point s = true -> forall n m, no_point (substring n m s) = true.
Proof.
  induction s as [|c r IH]; intros H n m.
  - destruct n, m; reflexivity.
  - simpl in H. apply andb_prop in H as [Hc Hr].
    destruct n as [|n]; [destruct m as [|m]|]; simpl.
    + reflexivity.
    + rewrite Hc. apply IH, Hr.
    + apply IH, Hr.
Qed.

Lemma substring_length_le (s : string) :
  forall n m, (String.length (substring n m s) <= m)%nat.
Proof.
  induction s as [|c r IH]; intros n m.
  - destruct n, m; simpl; lia.
  - destruct n as [|n]; [destruct m as [|m]|]; simpl.
    + lia.
    + specialize (IH 0%nat m). lia.
    + apply IH.
Qed.

Lemma group_rev_In (c : ascii) (l : list ascii) :
  forall i, In c (group_rev l i) -> In c l \/ c = ","%char.
Proof.
  induction l as [|a l IH]; intros i H; simpl in H; [contradiction|].
  destruct i as [|i].
  - destruct H as [->|H]; [left; left; reflexivity|].
    destruct (IH _ H) as [Hin| ->]; [left; right; exact Hin|right; reflexivity].
  - destruct l as [|b l'].
    + destruct H as [->|[]]. left; left; reflexivity.
    + destruct (i =? 0)%nat.
      * destruct H as [->|[<-|H]]; [left; left; reflexivity|right; reflexivity|].
        destruct (IH _ H) as [Hin| ->]; [left; right; exact Hin|right; reflexivity].
      * destruct H as [->|H]; [left; left; reflexivity|].
        destruct (IH _ H) as [Hin| ->]; [left; right; exact Hin|right; reflexivity].
Qed.

Lemma no_point_grouped (ip : string) : no_point ip = true -> no_point (grouped ip) = true.
Proof.
  rewrite !no_point_In. unfold grouped.
  rewrite list_ascii_of_string_of_list_ascii.
  intros H Hin. apply in_rev in Hin. apply group_rev_In in Hin.
  destruct Hin as [Hin|Hc]; [|discriminate].
  apply in_rev in Hin. exact (H Hin).
Qed.

Lemma strip_length (l : list ascii) :
  (List.length (strip_trailing_zeros_rev l) <= List.length l)%nat.
Proof.
  induction l as [|a l IH]; [simpl; lia|].
  destruct (Ascii.eqb_spec a "0") as [->|Hne].
  - simpl. lia.
  - assert (strip_trailing_zeros_rev (a :: l) = a :: l) as ->; [|simpl; lia].
    destruct a as [[] [] [] [] [] [] [] []]; try reflexivity. congruence.
Qed.

Lemma string_of_list_length (l : list ascii) :
  String.length (string_of_list_ascii l) = List.length l.
Proof. induction l; simpl; congruence. Qed.

Lemma list_of_string_length (s : string) :
  List.length (list_ascii_of_string s) = String.length s.
Proof. induction s; simpl; congruence. Qed.

Lemma fraction2_digits (b : string) :
  (fraction_digits (fraction2 b) <= String.length b)%nat.
Proof.
  unfold fraction2.
  pose proof (strip_length (rev (list_ascii_of_string b))) as Hlen.
  rewrite length_rev, list_of_string_length in Hlen.
  rewrite <- (length_rev (strip_trailing_zeros_rev _)) in Hlen.
  destruct (rev (strip_trailing_zeros_rev (rev (list_ascii_of_string b)))) as [|c l].
  - simpl. lia.
  - change (fraction_digits ("." +:+ string_of_list_ascii (c :: l)))
      with (String.length (string_of_list_ascii (c :: l))).
    rewrite string_of_list_length. exact Hlen.
Qed.

Lemma split_fraction_shape (n f : Z) :
  no_point (fst (split_fraction n f)) = true
  /\ (String.length (snd (split_fraction n f)) <= Z.to_nat f)%nat.
Proof.
  unfold split_fraction. cbv zeta. simpl fst. simpl snd.
  split; [|apply substring_length_le].
  apply no_point_substring.
  destruct (_ <=? _)%nat; [|apply no_point_digits].
  rewrite no_point_app, no_point_zeros, no_point_digits. reflexivity.
Qed.

Lemma toLocaleString2_fraction (x : number) :
  (fraction_digits (toLocaleString2 x) <= 2)%nat.
Proof.
  destruct x as [s|s| |s m e];
    [destruct s; vm_compute; lia|destruct s; vm_compute; lia|vm_compute; lia|].
  unfold toLocaleString2.
  pose proof (split_fraction_shape (round_hundredths (S754_finite s m e)) 2) as [Ha Hb].
  destruct (split_fraction (round_hundredths (S754_finite s m e)) 2) as [a b].
  simpl fst in Ha. simpl snd in Hb.
  rewrite fraction_digits_app by (destruct s; reflexivity).
  rewrite fraction_digits_app by (apply no_point_grouped, Ha).
  pose proof (fraction2_digits b). change (Z.to_nat 2) with 2%nat in Hb. lia.
Qed.

End Rendering.

(** ** [probabilityToOdds] *)

(** C6, as the claim states it, fails on its example: for
    [p = 184756 / 1646492110120], the probability of 10 hits out of 10
    picks, [1 / p] is above eight million and the descriptor is
    ["1 in 8,911,711.18"], not ["1 in 89,097.68"]. *)
Lemma odds_of_10_out_of_10 :
  calculateProbability 10 10 = ratio 184756 1646492110120
  /\ probabilityToOdds (ratio 184756 1646492110120) = "1 in 8,911,711.18"
  /\ probabilityToOdds (ratio 184756 1646492110120) <> "1 in 89,097.68"
  /\ exists q : Q,
       value (fdiv (Number 1) (ratio 184756 1646492110120)) = Some q
       /\ (8911711 < q)%Q.
Proof.
  split; [vm_compute; reflexivity|].
  split; [vm_compute; reflexivity|].
  split; [vm_compute; discriminate|].
  eexists. split; [vm_compute; reflexivity|]. vm_compute. reflexivity.
Qed.

(** C6 (amended): [probabilityToOdds(p)] is ["impossible"] when [p === 0],
    ["1 in 1"] when [p === 1], and otherwise ["1 in X"] with [X] the en-US
    rendering of [1 / p] with at most 2 decimal places; for
    [p = 184756 / 1646492110120] (picks = 10, hits = 10) the descriptor is
    ["1 in 8,911,711.18"]. *)
Theorem probabilityToOdds_spec (p : number) :
  (strict_eq p (Number 0) = true -> probabilityToOdds p = "impossible")
  /\ (strict_eq p (Number 1) = true -> probabilityToOdds p = "1 in 1")
  /\ (strict_eq p (Number 0) = false -> strict_eq p (Number 1) = false ->
      probabilityToOdds p = "1 in " +:+ toLocaleString2 (fdiv (Number 1) p)
      /\ (fraction_digits (toLocaleString2 (fdiv (Number 1) p)) <= 2)%nat)
  /\ (calculateProbability 10 10 = ratio 184756 1646492110120
      /\ probabilityToOdds (ratio 184756 1646492110120) = "1 in 8,911,711.18").
Proof.
  split; [intros H; unfold probabilityToOdds; rewrite H; reflexivity|].
  split.
  { intros H. unfold probabilityToOdds. rewrite H.
    destruct (strict_eq p (Number 0)) eqn:H0; [|reflexivity].
    destruct p as [s|s| |s m e]; [destruct s|destruct s| |destruct s];
      vm_compute in H0; try discriminate H0; vm_compute in H; discriminate H. }
  split.
  { intros H0 H1. unfold probabilityToOdds. rewrite H0, H1.
    split; [reflexivity|apply toLocaleString2_fraction]. }
  split; vm_compute; reflexivity.
Qed.

Lemma probabilityToOdds_spec_witness :
  probabilityToOdds (Number 0) = "impossible"
  /\ probabilityToOdds (Number 1) = "1 in 1"
  /\ probabilityToOdds (ratio 1 4) = "1 in " +:+ toLocaleString2 (fdiv (Number 1) (ratio 1 4)).
Proof.
  split; [exact (proj1 (probabilityToOdds_spec (Number 0)) eq_refl)|].
  split; [exact (proj1 (proj2 (probabilityToOdds_spec (Number 1))) eq_refl)|].
  exact (proj1 (proj1 (proj2 (proj2 (probabilityToOdds_spec (ratio 1 4)))) eq_refl eq_refl)).
Defined.

(** ** The aggregation loops of [analyzeKeno] *)

Lemma fold_left_fadd_map {A : Type} (f : A -> number) (l : list A) (acc : number) :
  fold_left fadd (map f l) acc = fold_left (fun a i => fadd a (f i)) l acc.
Proof. revert acc. induction l as [|x l IH]; intros acc; simpl; [reflexivity|apply IH]. Qed.

(** An accumulation [acc += f(hits)] over [hits = 0 .. picks] is the sum of
    the [f(hits)] in ascending order. *)
Lemma accumulate_hits (f : Z -> number) (picks : Z) :
  for_le 0 picks (fun hits acc => fadd acc (f hits)) (Number 0)
  = fsum (map f (hits_range picks)).
Proof.
  unfold for_le, fsum, hits_range.
  replace (picks + 1 - 0) with (picks + 1) by lia.
  change 0 with (Z.of_nat 0) at 1.
  rewrite for_loop_fold_left, fold_left_fadd_map. reflexivity.
Qed.

Lemma summary_totalEV (payouts : gmap Z (gmap Z number)) (picks : Z) :
  ps_totalEV (summarize_pick payouts picks) = expected_value payouts picks.
Proof.
  unfold summarize_pick, expected_value. cbv zeta. cbn [ps_totalEV].
  rewrite <- accumulate_hits. unfold for_le.
  apply (for_loop_project totalEV (summary_body payouts picks)
           (fun hits acc => fadd acc (fmul (calculateProbability picks hits)
                                           (payout_or_zero payouts picks hits)))).
  reflexivity.
Qed.

Lemma detail_totalExpectedValue (payouts : gmap Z (gmap Z number)) (picks : Z) :
  pd_totalExpectedValue (analyze_pick payouts picks) = expected_value payouts picks.
Proof.
  unfold analyze_pick, expected_value. cbv zeta. cbn [pd_totalExpectedValue].
  rewrite <- accumulate_hits. unfold for_le.
  apply (for_loop_project totalExpectedValue (detail_body payouts picks)
           (fun hits acc => fadd acc (fmul (calculateProbability picks hits)
                                           (payout_or_zero payouts picks hits)))).
  reflexivity.
Qed.

(** C7: for every payout table and every [picks] (in particular [1..10]),
    both loops of [analyzeKeno] produce [totalEV] as the sum over
    [hits = 0..picks] of [probability * multiplier], the house edge as
    [1 - totalEV] and the RTP as [totalEV], both held as percentages.  For
    the table that pays 3.8x for 1 hit out of 1 pick and nothing else,
    [totalEV = 0.25 * 3.8 = 0.95], the house edge is 5% up to rounding
    (within [1e-9], printed 5.00%) and the RTP is 95% (printed 95.00%). *)
Theorem pick_summary_metrics :
  (forall (payouts : gmap Z (gmap Z number)) (picks : Z),
      let s := summarize_pick payouts picks in
      let d := analyze_pick payouts picks in
      ps_totalEV s = expected_value payouts picks
      /\ ps_houseEdge s = fmul (fsub (Number 1) (ps_totalEV s)) (Number 100)
      /\ ps_rtp s = fmul (ps_totalEV s) (Number 100)
      /\ pd_totalExpectedValue d = expected_value payouts picks
      /\ pd_houseEdge d = fmul (fsub (Number 1) (pd_totalExpectedValue d)) (Number 100)
      /\ pd_rtp d = fmul (pd_totalExpectedValue d) (Number 100))
  /\ (let s := summarize_pick table_3_8 1 in
      let d := analyze_pick table_3_8 1 in
      ps_totalEV s = fmul (ratio 25 100) (ratio 38 10)
      /\ ps_totalEV s = ratio 95 100
      /\ ps_totalEVStr s = "0.950000"
      /\ ps_houseEdgeStr s = "5.00"
      /\ (exists q, value (ps_houseEdge s) = Some q /\ (Qabs (q - 5) <= 1 # 10 ^ 9)%Q)
      /\ ps_rtp s = Number 95 /\ ps_rtpStr s = "95.00"
      /\ pd_totalExpectedValue d = ratio 95 100
      /\ pd_expectedValueStr d = "0.950000"
      /\ pd_houseEdgeStr d = "5.00"
      /\ pd_rtp d = Number 95 /\ pd_rtpStr d = "95.00").
Proof.
  split.
  - intros payouts picks s d. subst s d.
    split; [apply summary_totalEV|].
    split; [reflexivity|]. split; [reflexivity|].
    split; [apply detail_totalExpectedValue|].
    split; reflexivity.
  - cbv zeta.
    repeat match goal with
           | |- _ /\ _ => split
           | |- exists q, _ => eexists; split; [vm_compute; reflexivity|vm_compute; discriminate]
           | |- _ = _ => vm_compute; reflexivity
           end.
Qed.

(** ** Missing payout entries *)

Lemma payout_or_zero_absent (payouts : gmap Z (gmap Z number)) (picks hits : Z) :
  payout_entry payouts picks hits = None -> payout_or_zero payouts picks hits = Number 0.
Proof. intros H. unfold payout_or_zero. rewrite H. reflexivity. Qed.

Lemma payout_entry_no_row (payouts : gmap Z (gmap Z number)) (picks hits : Z) :
  payouts !! picks = None -> payout_entry payouts picks hits = None.
Proof. intros H. unfold payout_entry. rewrite H. reflexivity. Qed.

Lemma summarize_pick_no_row (payouts : gmap Z (gmap Z number)) (picks : Z) :
  payouts !! picks = None -> summarize_pick payouts picks = summarize_pick ∅ picks.
Proof.
  intros H. unfold summarize_pick, for_le.
  rewrite (for_loop_ext (summary_body payouts picks) (summary_body ∅ picks)); [reflexivity|].
  intros hits st. unfold summary_body.
  rewrite !(payout_or_zero_absent payouts) by (apply payout_entry_no_row, H).
  rewrite !(payout_or_zero_absent ∅) by (apply payout_entry_no_row, lookup_empty).
  reflexivity.
Qed.

Lemma analyze_pick_no_row (payouts : gmap Z (gmap Z number)) (picks : Z) :
  payouts !! picks = None -> analyze_pick payouts picks = analyze_pick ∅ picks.
Proof.
  intros H. unfold analyze_pick, for_le.
  rewrite (for_loop_ext (detail_body payouts picks) (detail_body ∅ picks)); [reflexivity|].
  intros hits st. unfold detail_body.
  rewrite !(payout_or_zero_absent payouts) by (apply payout_entry_no_row, H).
  rewrite !(payout_or_zero_absent ∅) by (apply payout_entry_no_row, lookup_empty).
  reflexivity.
Qed.

Lemma all_no_payout_ok : forallb no_payout_ok (Zrange 1 10) = true.
Proof. vm_compute. reflexivity. Qed.

(** C8: an absent payout-table entry is the multiplier [0]; and for a
    [picks] in [1..10] with no table entry at all every multiplier is [0],
    [totalEV] and the RTP are [0] and the house edge is 100%, in both loops
    of [analyzeKeno], which yield their results as usual. *)
Theorem absent_payout_is_zero :
  (forall (payouts : gmap Z (gmap Z number)) (picks hits : Z),
      payout_entry payouts picks hits = None ->
      payout_or_zero payouts picks hits = Number 0)
  /\ (forall (payouts : gmap Z (gmap Z number)) (picks : Z),
         1 <= picks <= 10 -> payouts !! picks = None ->
         (forall hits, payout_or_zero payouts picks hits = Number 0)
         /\ ps_totalEV (summarize_pick payouts picks) = Number 0
         /\ ps_rtp (summarize_pick payouts picks) = Number 0
         /\ ps_houseEdge (summarize_pick payouts picks) = Number 100
         /\ ps_houseEdgeStr (summarize_pick payouts picks) = "100.00"
         /\ pd_totalExpectedValue (analyze_pick payouts picks) = Number 0
         /\ pd_rtp (analyze_pick payouts picks) = Number 0
         /\ pd_houseEdge (analyze_pick payouts picks) = Number 100
         /\ pd_houseEdgeStr (analyze_pick payouts picks) = "100.00").
Proof.
  split; [apply payout_or_zero_absent|].
  intros payouts picks Hp Hrow.
  split; [intros hits; apply payout_or_zero_absent, payout_entry_no_row, Hrow|].
  rewrite summarize_pick_no_row, analyze_pick_no_row by exact Hrow.
  pose proof (Zrange_forallb _ _ _ all_no_payout_ok picks Hp) as H.
  unfold no_payout_ok in H. cbv zeta in H.
  repeat (apply andb_prop in H as [H ?]).
  repeat split; try (now apply same_eq); now apply String.eqb_eq.
Qed.

Lemma absent_payout_is_zero_witness :
  payout_or_zero table_3_8 1 0 = Number 0
  /\ ps_houseEdge (summarize_pick table_3_8 2) = Number 100.
Proof.
  split.
  - apply (proj1 absent_payout_is_zero table_3_8 1 0). vm_compute. reflexivity.
  - apply (proj2 absent_payout_is_zero table_3_8 2); [lia|vm_compute; reflexivity].
Defined.

(** ** The "best odds to win" column *)

(** C1 on the code: the "best odds to win" cell of a summary line is
    always ["1 in "] followed by [(1 / bestWinOdds).toFixed(2)], which is
    ["Infinity"] for a combined win probability of [0].  With an empty
    payout table (a CSV that has only its header line) every one of the ten
    summary lines has a combined win probability of [0] and the cell
    ["1 in Infinity"], where [probabilityToOdds] gives ["impossible"]. *)
Theorem best_odds_of_empty_table :
  (forall (payouts : gmap Z (gmap Z number)) (picks : Z),
      ps_winOddsStr (summarize_pick payouts picks)
      = "1 in " +:+ toFixed (fdiv (Number 1) (ps_bestWinOdds (summarize_pick payouts picks))) 2)
  /\ toFixed (fdiv (Number 1) (Number 0)) 2 = "Infinity"
  /\ List.length (snd (analyzeKeno ∅)) = 10%nat
  /\ Forall (fun s => ps_bestWinOdds s = Number 0
                      /\ ps_winOddsStr s = "1 in Infinity"
                      /\ probabilityToOdds (ps_bestWinOdds s) = "impossible")
            (snd (analyzeKeno ∅)).
Proof.
  split; [reflexivity|].
  split; [vm_compute; reflexivity|].
  split; [vm_compute; reflexivity|].
  set (l := snd (analyzeKeno ∅)). vm_compute in l. subst l.
  repeat (constructor; [repeat split; vm_compute; reflexivity|]).
  constructor.
Qed.

(** ** More on the combinatorics *)

Lemma falling_product (n k : Z) :
  0 <= k <= n ->
  for_lt 0 k (fun i numerator => numerator * (n - i)) 1 * math_factorial (n - k)
  = math_factorial n.
Proof.
  intros H. unfold for_lt, math_factorial.
  pose proof (falling_loop (Z.to_nat n) (Z.to_nat k) 0 1 ltac:(lia)
                ltac:(rewrite Nat.sub_0_r; lia)) as Hf.
  replace (Z.to_nat (k - 0)) with (Z.to_nat k) by lia.
  replace (Z.to_nat (n - k)) with (Z.to_nat n - 0 - Z.to_nat k)%nat by lia.
  replace (Z.of_nat (Z.to_nat n)) with n in Hf by lia. exact Hf.
Qed.

Lemma choose_pascal (n k : Z) :
  0 <= k <= n -> choose n k = pascal (Z.to_nat n) (Z.to_nat k).
Proof.
  intros H. unfold choose, math_factorial.
  replace (Z.to_nat (n - k)) with (Z.to_nat n - Z.to_nat k)%nat by lia.
  pose proof (pascal_factorials (Z.to_nat n) (Z.to_nat k) ltac:(lia)) as Hp.
  pose proof (fact_Z_pos (Z.to_nat k)). pose proof (fact_Z_pos (Z.to_nat n - Z.to_nat k)).
  rewrite <- Hp. apply Z.div_mul. lia.
Qed.

(** X1: [factorial] is [1] up to [1], satisfies
    [factorial(n + 1) = (n + 1) * factorial(n)] from [1] on, and is always
    positive (so [binomial] never divides by zero). *)
Theorem factorial_recurrence (n : Z) :
  (n <= 1 -> factorial n = 1)
  /\ (1 <= n -> factorial (n + 1) = (n + 1) * factorial n)
  /\ 0 < factorial n.
Proof.
  rewrite !factorial_correct. unfold math_factorial. split; [|split].
  - intros H.
    assert (Z.to_nat n = 0%nat \/ Z.to_nat n = 1%nat) as [-> | ->] by lia; reflexivity.
  - intros H. replace (Z.to_nat (n + 1)) with (S (Z.to_nat n)) by lia.
    rewrite fact_Z_succ. f_equal. lia.
  - apply fact_Z_pos.
Qed.

Lemma factorial_recurrence_witness :
  factorial (-3) = 1 /\ factorial (5 + 1) = (5 + 1) * factorial 5.
Proof.
  split.
  - apply (proj1 (factorial_recurrence (-3))). lia.
  - apply (proj1 (proj2 (factorial_recurrence 5))). lia.
Defined.

(** X2: in [binomial], for [0 <= k <= n], the BigInt division
    [numerator / denominator] leaves no remainder: the falling product is
    the quotient times [factorial(k)], with [k] the smaller of [k] and
    [n - k]. *)
Theorem binomial_division_exact (n k : Z) :
  0 <= k <= n ->
  let k' := if k >? n - k then n - k else k in
  for_lt 0 k' (fun i numerator => numerator * (n - i)) 1
  = binomial_quotient n k * factorial k'.
Proof.
  intros H k'.
  assert (Hk' : 0 <= k' <= n) by (subst k'; destruct (Z.gtb_spec k (n - k)); lia).
  assert (Hq : binomial_quotient n k = choose n k').
  { rewrite binomial_quotient_correct by exact H. subst k'.
    destruct (Z.gtb_spec k (n - k)); [apply choose_sym; exact H|reflexivity]. }
  rewrite Hq, factorial_correct.
  pose proof (falling_product n k' Hk') as Hf.
  pose proof (choose_exact n k' Hk') as Hc.
  pose proof (fact_Z_pos (Z.to_nat (n - k'))) as Hpos. fold (math_factorial (n - k')) in Hpos.
  rewrite <- Hc in Hf.
  apply (Z.mul_cancel_r _ _ (math_factorial (n - k'))); [lia|].
  rewrite Hf. ring.
Qed.

Lemma binomial_division_exact_witness :
  for_lt 0 10 (fun i numerator => numerator * (80 - i)) 1
  = binomial_quotient 80 70 * factorial 10.
Proof. apply (binomial_division_exact 80 70). lia. Defined.

(** X3: the BigInt quotients of [binomial] obey Pascal's rule,
    [C(n+1, k+1) = C(n, k) + C(n, k+1)] for [0 <= k < n]. *)
Theorem binomial_quotient_pascal (n k : Z) :
  0 <= k < n ->
  binomial_quotient (n + 1) (k + 1) = binomial_quotient n k + binomial_quotient n (k + 1).
Proof.
  intros H. rewrite !binomial_quotient_correct by lia.
  rewrite !choose_pascal by lia.
  replace (Z.to_nat (n + 1)) with (S (Z.to_nat n)) by lia.
  replace (Z.to_nat (k + 1)) with (S (Z.to_nat k)) by lia.
  reflexivity.
Qed.

Lemma binomial_quotient_pascal_witness :
  binomial_quotient (79 + 1) (9 + 1) = binomial_quotient 79 9 + binomial_quotient 79 (9 + 1).
Proof. apply (binomial_quotient_pascal 79 9). lia. Defined.

(** ** [calculateProbability] outside the tables *)

Lemma all_support_ok :
  forallb (fun picks => forallb (support_ok picks)
                          (Zrange (Z.max 0 (picks - 60)) (Z.min picks 20)))
          (Zrange 0 80) = true.
Proof. vm_compute. reflexivity. Qed.

Lemma all_zero_times_ok : forallb zero_times_ok (Zrange 0 60) = true.
Proof. vm_compute. reflexivity. Qed.

Lemma all_zero_over_ok : forallb zero_over_ok (Zrange 0 80) = true.
Proof. vm_compute. reflexivity. Qed.

Lemma all_zero_over_zero_ok : forallb zero_over_zero_ok (Zrange 0 60) = true.
Proof. vm_compute. reflexivity. Qed.

Lemma exact_from_quotients_correct (picks hits : Z) :
  0 <= hits <= 20 -> 0 <= picks - hits <= 60 ->
  exact_from_quotients picks hits = exact_probability picks hits.
Proof.
  intros Hh Hd. unfold exact_from_quotients, exact_probability.
  unfold NUMBERS_NOT_DRAWN, NUMBERS_DRAWN, TOTAL_NUMBERS.
  rewrite !binomial_quotient_correct by lia. reflexivity.
Qed.

Lemma guard_false (picks hits : Z) :
  hits <= picks -> hits <= 20 -> picks - hits <= 60 -> impossible_outcome picks hits = false.
Proof.
  intros H1 H2 H3. unfold impossible_outcome, NUMBERS_NOT_DRAWN, NUMBERS_DRAWN, TOTAL_NUMBERS.
  destruct (Z.gtb_spec hits picks), (Z.gtb_spec hits 20),
    (Z.gtb_spec (picks - hits) (80 - 20)); simpl; try reflexivity; lia.
Qed.

Lemma guard_true (picks hits : Z) :
  hits > picks \/ hits > 20 \/ picks - hits > 60 -> impossible_outcome picks hits = true.
Proof.
  intros H. unfold impossible_outcome, NUMBERS_NOT_DRAWN, NUMBERS_DRAWN, TOTAL_NUMBERS.
  destruct (Z.gtb_spec hits picks), (Z.gtb_spec hits 20),
    (Z.gtb_spec (picks - hits) (80 - 20)); simpl; try reflexivity; lia.
Qed.

Lemma calculateProbability_unguarded (picks hits : Z) :
  impossible_outcome picks hits = false ->
  calculateProbability picks hits
  = fdiv (fmul (binomial NUMBERS_DRAWN hits) (binomial NUMBERS_NOT_DRAWN (picks - hits)))
         (binomial TOTAL_NUMBERS picks).
Proof.
  intros H. unfold calculateProbability, calculateProbability_calls. rewrite H. reflexivity.
Qed.

(** X4: for every [picks >= 0] and every integer [hits],
    [calculateProbability] returns a probability: for
    [0 <= hits <= min(picks, 20)] with [picks - hits <= 60] a Number in
    [(0, 1]] within relative error [2^-51] of the exact
    [C(20,hits) C(60,picks-hits) / C(80,picks)], and exactly [0] everywhere
    else; it never reaches the zero divisor [C(80, picks)] of [picks > 80]. *)
Theorem calculateProbability_support (picks hits : Z) :
  0 <= picks ->
  (0 <= hits <= picks /\ hits <= 20 /\ picks - hits <= 60 ->
   exists q : Q,
     value (calculateProbability picks hits) = Some q
     /\ (0 < q)%Q /\ (q <= 1)%Q
     /\ (Qabs (q - exact_probability picks hits)
         <= exact_probability picks hits * (1 # 2 ^ 51))%Q)
  /\ (hits < 0 \/ hits > picks \/ hits > 20 \/ picks - hits > 60 ->
      calculateProbability picks hits = Number 0).
Proof.
  intros Hp. split.
  - intros (Hh & H20 & H60).
    pose proof (Zrange_forallb _ _ _ all_support_ok picks ltac:(lia)) as H.
    pose proof (Zrange_forallb _ _ _ H hits ltac:(lia)) as Hok.
    unfold support_ok in Hok.
    rewrite exact_from_quotients_correct in Hok by lia.
    destruct (value (calculateProbability picks hits)) as [q|]; [|discriminate].
    exists q. apply andb_prop in Hok as [Hok Herr]. apply andb_prop in Hok as [Hpos Hle].
    split; [reflexivity|].
    split.
    { apply negb_true_iff in Hpos. apply Qnot_le_lt. intros Hq.
      apply Qle_bool_iff in Hq. congruence. }
    split; now apply Qle_bool_iff.
  - intros H.
    destruct (impossible_outcome picks hits) eqn:Hg.
    + unfold calculateProbability. rewrite guard_returns_zero by exact Hg. reflexivity.
    + assert (Hneg : hits < 0).
      { destruct (Z_lt_ge_dec hits 0) as [Hlt|Hge]; [exact Hlt|].
        rewrite guard_true in Hg by lia. discriminate. }
      assert (Hin : hits <= picks /\ hits <= 20 /\ picks - hits <= 60).
      { destruct (Z_le_gt_dec hits picks), (Z_le_gt_dec hits 20),
          (Z_le_gt_dec (picks - hits) 60); try (rewrite guard_true in Hg by lia; discriminate).
        lia. }
      rewrite calculateProbability_unguarded by exact Hg.
      rewrite (binomial_out_of_range NUMBERS_DRAWN hits) by lia.
      pose proof (Zrange_forallb _ _ _ all_zero_times_ok (picks - hits) ltac:(lia)) as Ht.
      apply same_eq in Ht. rewrite Ht.
      pose proof (Zrange_forallb _ _ _ all_zero_over_ok picks ltac:(lia)) as Ho.
      apply same_eq in Ho. exact Ho.
Qed.

Lemma calculateProbability_support_witness :
  (exists q : Q, value (calculateProbability 80 20) = Some q /\ (0 < q)%Q)
  /\ calculateProbability 100 20 = Number 0
  /\ calculateProbability 5 (-1) = Number 0.
Proof.
  split.
  - destruct (proj1 (calculateProbability_support 80 20 ltac:(lia)) ltac:(lia)) as (q & Hq & Hpos & _).
    exists q. split; assumption.
  - split.
    + apply (proj2 (calculateProbability_support 100 20 ltac:(lia))). lia.
    + apply (proj2 (calculateProbability_support 5 (-1) ltac:(lia))). lia.
Defined.

(** X5: for a negative [picks] the guard does not cover the case
    [hits <= picks] with [picks - hits <= 60]: there
    [calculateProbability] divides [0] by [C(80, picks) = 0] and returns
    [NaN]; for every other [hits] it returns [0]. *)
Theorem calculateProbability_negative_picks (picks hits : Z) :
  picks < 0 ->
  (hits <= picks /\ picks - hits <= 60 -> calculateProbability picks hits = S754_nan)
  /\ (hits > picks \/ picks - hits > 60 -> calculateProbability picks hits = Number 0).
Proof.
  intros Hp. split.
  - intros [Hh Hd].
    rewrite calculateProbability_unguarded by (apply guard_false; lia).
    rewrite (binomial_out_of_range NUMBERS_DRAWN hits) by lia.
    rewrite (binomial_out_of_range TOTAL_NUMBERS picks) by lia.
    pose proof (Zrange_forallb _ _ _ all_zero_over_zero_ok (picks - hits) ltac:(lia)) as H.
    apply same_eq in H. exact H.
  - intros H. unfold calculateProbability.
    rewrite guard_returns_zero by (apply guard_true; lia). reflexivity.
Qed.

Lemma calculateProbability_negative_picks_witness :
  calculateProbability (-1) (-1) = S754_nan /\ calculateProbability (-1) 0 = Number 0.
Proof.
  split.
  - apply (proj1 (calculateProbability_negative_picks (-1) (-1) ltac:(lia))). lia.
  - apply (proj2 (calculateProbability_negative_picks (-1) 0 ltac:(lia))). lia.
Defined.




(** ** The tables of [analyzeKeno] *)

Lemma for_loop_collect {A : Type} (f : Z -> A) :
  forall count a (acc : list A),
    for_loop count a (fun i acc => acc ++ f i :: nil) acc
    = acc ++ map f (map (fun j => a + Z.of_nat j) (seq 0 count)).
Proof.
  induction count as [|c IH]; intros a acc; simpl.
  - rewrite app_nil_r. reflexivity.
  - rewrite IH, <- app_assoc. simpl. rewrite Z.add_0_r. do 2 f_equal.
    rewrite <- seq_shift, !map_map. apply map_ext. intros j. f_equal. lia.
Qed.

Lemma hits_range_from_zero (picks : Z) :
  map (fun j => 0 + Z.of_nat j) (seq 0 (Z.to_nat (picks + 1 - 0))) = hits_range picks.
Proof.
  unfold hits_range. replace (picks + 1 - 0) with (picks + 1) by lia.
  apply map_ext. intros j. lia.
Qed.

Lemma detail_rows (payouts : gmap Z (gmap Z number)) (picks : Z) :
  pd_rows (analyze_pick payouts picks) = map (row_of payouts picks) (hits_range picks).
Proof.
  unfold analyze_pick. cbv zeta. cbn [pd_rows]. unfold for_le.
  rewrite (for_loop_project printed (detail_body payouts picks)
             (fun hits acc => acc ++ row_of payouts picks hits :: nil))
    by reflexivity.
  cbn [printed]. rewrite for_loop_collect, hits_range_from_zero. reflexivity.
Qed.

(** X7: for every payout table and [picks], the per-pick table has one row
    per [hits = 0 .. picks] in ascending order, each with the probability,
    multiplier and EV contribution of that outcome, and the expected value
    printed under the table is the sum of the printed EV contributions. *)
Theorem detail_table_rows (payouts : gmap Z (gmap Z number)) (picks : Z) :
  let d := analyze_pick payouts picks in
  map row_hits (pd_rows d) = hits_range picks
  /\ Forall (fun r =>
               row_probability r = calculateProbability picks (row_hits r)
               /\ row_payout r = payout_or_zero payouts picks (row_hits r)
               /\ row_evContribution r = fmul (row_probability r) (row_payout r)
               /\ row_odds r = probabilityToOdds (row_probability r))
            (pd_rows d)
  /\ pd_totalExpectedValue d = fsum (map row_evContribution (pd_rows d)).
Proof.
  intros d. subst d. rewrite detail_totalExpectedValue, detail_rows.
  split; [|split].
  - rewrite map_map. apply map_id.
  - apply List.Forall_forall. intros r Hr. apply in_map_iff in Hr as (h & <- & _).
    repeat split.
  - unfold expected_value. rewrite map_map. reflexivity.
Qed.

Lemma Forall2_map_same {A B C : Type} (R : B -> C -> Prop) (f : A -> B) (g : A -> C)
    (l : list A) :
  (forall x, R (f x) (g x)) -> Forall2 R (map f l) (map g l).
Proof. intros H. induction l; simpl; constructor; auto. Qed.

Lemma passes_agree (payouts : gmap Z (gmap Z number)) (picks : Z) :
  same_figures (analyze_pick payouts picks) (summarize_pick payouts picks).
Proof.
  pose proof (detail_totalExpectedValue payouts picks) as Hd.
  pose proof (summary_totalEV payouts picks) as Hs.
  unfold analyze_pick, summarize_pick, same_figures in *. cbv zeta in *.
  cbn [pd_picks ps_picks pd_totalExpectedValue ps_totalEV pd_houseEdge ps_houseEdge
       pd_rtp ps_rtp pd_expectedValueStr ps_totalEVStr pd_houseEdgeStr ps_houseEdgeStr
       pd_rtpStr ps_rtpStr] in *.
  rewrite Hd, Hs. repeat split.
Qed.

(** X8: for every payout table [analyzeKeno] prints ten per-pick tables and
    ten summary lines, for [picks = 1, ..., 10] in this order, and every
    summary line repeats the expected value, house edge and RTP (Numbers
    and printed figures) of the table of the same [picks]. *)
Theorem analyzeKeno_passes_agree (payouts : gmap Z (gmap Z number)) :
  map pd_picks (fst (analyzeKeno payouts)) = Zrange 1 10
  /\ map ps_picks (snd (analyzeKeno payouts)) = Zrange 1 10
  /\ Forall2 same_figures (fst (analyzeKeno payouts)) (snd (analyzeKeno payouts)).
Proof.
  unfold analyzeKeno, for_le. rewrite !for_loop_collect. cbn [fst snd app].
  fold (Zrange 1 10).
  split; [|split].
  - rewrite map_map. apply map_id.
  - rewrite map_map. apply map_id.
  - apply Forall2_map_same, passes_agree.
Qed.

(** ** The "max payout" and "best odds to win" columns *)

Lemma fold_left_filter (f : Z -> number) (g : Z -> bool) (l : list Z) (acc : number) :
  fold_left (fun a i => if g i then fadd a (f i) else a) l acc
  = fold_left fadd (map f (List.filter g l)) acc.
Proof.
  revert acc. induction l as [|x l IH]; intros acc; simpl; [reflexivity|].
  destruct (g x); simpl; apply IH.
Qed.

Lemma summary_bestWinOdds (payouts : gmap Z (gmap Z number)) (picks : Z) :
  ps_bestWinOdds (summarize_pick payouts picks)
  = fsum (map (calculateProbability picks)
              (List.filter (pays payouts picks) (hits_range picks))).
Proof.
  unfold summarize_pick. cbv zeta. cbn [ps_bestWinOdds]. unfold for_le.
  rewrite (for_loop_project bestWinOdds (summary_body payouts picks)
             (fun hits acc => if pays payouts picks hits
                              then fadd acc (calculateProbability picks hits) else acc))
    by reflexivity.
  cbn [bestWinOdds]. replace (picks + 1 - 0) with (picks + 1) by lia.
  change 0 with (Z.of_nat 0) at 1.
  rewrite for_loop_fold_left. unfold fsum, hits_range.
  apply fold_left_filter.
Qed.

Lemma selected_filter (f : Z -> number) (g : Z -> bool) (l : list Z) :
  map fst (List.filter snd (combine (map f l) (map g l))) = map f (List.filter g l).
Proof.
  induction l as [|x l IH]; simpl; [reflexivity|].
  destruct (g x); simpl; rewrite IH; reflexivity.
Qed.

Lemma existsb_filter (g : Z -> bool) (l : list Z) :
  existsb id (map g l) = negb (match List.filter g l with nil => true | _ => false end).
Proof.
  induction l as [|x l IH]; simpl; [reflexivity|].
  unfold id at 1. destruct (g x); simpl; [reflexivity|exact IH].
Qed.

Lemma all_masks_complete (m : list bool) : In m (all_masks (List.length m)).
Proof.
  induction m as [|b m IH]; simpl; [left; reflexivity|].
  apply in_flat_map. exists m. split; [exact IH|].
  destruct b; simpl; auto.
Qed.

Lemma append_inj_l (s a b : string) : s +:+ a = s +:+ b -> a = b.
Proof. induction s as [|c s IH]; simpl; intros H; [exact H|]. injection H as H. auto. Qed.

Lemma all_win_sums_ok : forallb win_sums_ok (Zrange 1 10) = true.
Proof. vm_compute. reflexivity. Qed.

(** X9: for every payout table and [picks] in [1..10], the combined win
    probability is the sum of the probabilities of the hit counts that pay
    (multiplier above 0), in ascending order.  When none pays it is [0] and
    the "best odds to win" cell is ["1 in Infinity"]; when some pays it is
    in [(0, 1]] and the cell shows a finite figure of at least 1. *)
Theorem best_win_odds (payouts : gmap Z (gmap Z number)) (picks : Z) :
  1 <= picks <= 10 ->
  let s := summarize_pick payouts picks in
  let paying := List.filter (pays payouts picks) (hits_range picks) in
  ps_bestWinOdds s = fsum (map (calculateProbability picks) paying)
  /\ (paying = nil ->
      ps_bestWinOdds s = Number 0 /\ ps_winOddsStr s = "1 in Infinity")
  /\ (paying <> nil ->
      ps_winOddsStr s <> "1 in Infinity"
      /\ exists q r : Q,
           value (ps_bestWinOdds s) = Some q /\ (0 < q)%Q /\ (q <= 1)%Q
           /\ value (fdiv (Number 1) (ps_bestWinOdds s)) = Some r /\ (1 <= r)%Q).
Proof.
  intros Hp s paying.
  set (w := ps_bestWinOdds s). set (str := ps_winOddsStr s).
  assert (Hstr : str = "1 in " +:+ toFixed (fdiv (Number 1) w) 2) by reflexivity.
  assert (Hsum : w = fsum (map (calculateProbability picks) paying))
    by apply summary_bestWinOdds.
  clearbody w str. clear s.
  split; [exact Hsum|].
  pose proof (Zrange_forallb _ _ _ all_win_sums_ok picks Hp) as Hall.
  unfold win_sums_ok in Hall. cbv zeta in Hall. rewrite forallb_forall in Hall.
  specialize (Hall (map (pays payouts picks) (hits_range picks))).
  rewrite length_map, <- (length_map (pays payouts picks)) in Hall.
  specialize (Hall (all_masks_complete _)).
  unfold selected_sum in Hall. rewrite selected_filter, existsb_filter in Hall.
  fold paying in Hall. rewrite <- Hsum in Hall.
  split.
  - intros Hnil. rewrite Hnil in Hall. cbn [negb] in Hall. apply same_eq in Hall.
    split; [exact Hall|]. rewrite Hstr, Hall. vm_compute. reflexivity.
  - intros Hsome. destruct paying as [|h rest]; [congruence|]. cbn [negb] in Hall.
    apply andb_prop in Hall as [Hv Hinf].
    split.
    + rewrite Hstr. intros Heq.
      change "1 in Infinity"%string with ("1 in " +:+ "Infinity") in Heq.
      apply append_inj_l in Heq.
      apply negb_true_iff in Hinf. apply String.eqb_neq in Hinf. contradiction.
    + destruct (value w) as [q|]; [|discriminate].
      destruct (value (fdiv (Number 1) w)) as [r|]; [|discriminate].
      exists q, r. apply andb_prop in Hv as [Hv Hr]. apply andb_prop in Hv as [H0 H1].
      split; [reflexivity|]. split.
      { apply negb_true_iff in H0. apply Qnot_le_lt. intros Hq.
        apply Qle_bool_iff in Hq. congruence. }
      split; [now apply Qle_bool_iff|]. split; [reflexivity|now apply Qle_bool_iff].
Qed.

Lemma best_win_odds_witness :
  ps_winOddsStr (summarize_pick table_3_8 2) = "1 in Infinity"
  /\ ps_winOddsStr (summarize_pick table_3_8 1) <> "1 in Infinity".
Proof.
  split.
  - apply (proj1 (proj2 (best_win_odds table_3_8 2 ltac:(lia)))). vm_compute. reflexivity.
  - apply (proj2 (proj2 (best_win_odds table_3_8 1 ltac:(lia)))). vm_compute. discriminate.
Defined.

Lemma SFltb_irrefl (x : number) : SFltb x x = false.
Proof.
  destruct x as [s|s| |s m e]; try destruct s; try reflexivity;
    unfold SFltb, SFcompare; rewrite Z.compare_refl;
    change (Pos.compare_cont Eq m m) with (Pos.compare m m);
    rewrite Pos.compare_refl; reflexivity.
Qed.

Lemma SFltb_trans (a b c : number) :
  SFltb a b = true -> SFltb b c = true -> SFltb a c = true.
Proof.
  unfold SFltb, SFcompare.
  destruct a as [sa|sa| |sa ma ea], b as [sb|sb| |sb mb eb], c as [sc|sc| |sc mc ec];
    try discriminate; try (destruct sa, sb, sc; simpl; (discriminate || reflexivity));
    try (destruct sa, sb; simpl; (discriminate || reflexivity));
    try (destruct sa, sc; simpl; (discriminate || reflexivity));
    try (destruct sb, sc; simpl; (discriminate || reflexivity)).
  all: destruct sa, sb, sc; try discriminate; try reflexivity.
  all: change (Pos.compare_cont Eq ma mb) with (Pos.compare ma mb);
       change (Pos.compare_cont Eq mb mc) with (Pos.compare mb mc);
       change (Pos.compare_cont Eq ma mc) with (Pos.compare ma mc).
  all: destruct (Z.compare_spec ea eb), (Z.compare_spec eb ec), (Z.compare_spec ea ec);
       try discriminate; try reflexivity; try lia; subst.
  all: destruct (Pos.compare_spec ma mb), (Pos.compare_spec mb mc), (Pos.compare_spec ma mc);
       simpl; try discriminate; try reflexivity; try lia.
Qed.

Lemma max_loop (pay : Z -> number) (lo : Z) :
  forall count a m,
    lo <= a ->
    (forall h, lo <= h < a -> gt (pay h) m = false) ->
    (m = Number 0 \/ exists h, lo <= h < a /\ m = pay h) ->
    (forall h, lo <= h < a + Z.of_nat count ->
               gt (pay h) (for_loop count a (fun h m => if gt (pay h) m then pay h else m) m)
               = false)
    /\ (for_loop count a (fun h m => if gt (pay h) m then pay h else m) m = Number 0
        \/ exists h, lo <= h < a + Z.of_nat count
                     /\ for_loop count a (fun h m => if gt (pay h) m then pay h else m) m
                        = pay h).
Proof.
  induction count as [|c IH]; intros a m Hlo Hmax Hatt; cbn [for_loop].
  - replace (a + Z.of_nat 0) with a by lia. split; assumption.
  - replace (a + Z.of_nat (S c)) with (a + 1 + Z.of_nat c) by lia.
    apply IH; [lia| |].
    + intros h Hh. destruct (gt (pay a) m) eqn:Hgt.
      * destruct (Z.eq_dec h a) as [->|Hne]; [apply SFltb_irrefl|].
        unfold gt in *. destruct (SFltb (pay a) (pay h)) eqn:Hah; [|reflexivity].
        rewrite <- (Hmax h ltac:(lia)). symmetry. apply (SFltb_trans _ (pay a)); assumption.
      * destruct (Z.eq_dec h a) as [->|Hne]; [exact Hgt|apply Hmax; lia].
    + destruct (gt (pay a) m).
      * right. exists a. split; [lia|reflexivity].
      * destruct Hatt as [->|(h & Hh & ->)]; [left; reflexivity|].
        right. exists h. split; [lia|reflexivity].
Qed.

(** X10: for every payout table and [picks >= 0], the "max payout" of a
    summary line is the largest of [0] and the multipliers of
    [hits = 0 .. picks]: no multiplier exceeds it, and it is [0] or the
    multiplier of one of these hit counts. *)
Theorem max_payout_is_maximum (payouts : gmap Z (gmap Z number)) (picks : Z) :
  0 <= picks ->
  let m := ps_maxPayout (summarize_pick payouts picks) in
  (forall hits, 0 <= hits <= picks -> gt (payout_or_zero payouts picks hits) m = false)
  /\ (m = Number 0
      \/ exists hits, 0 <= hits <= picks /\ m = payout_or_zero payouts picks hits).
Proof.
  intros Hp m. subst m.
  unfold summarize_pick. cbv zeta. cbn [ps_maxPayout]. unfold for_le.
  rewrite (for_loop_project maxPayout (summary_body payouts picks)
             (fun hits m => if gt (payout_or_zero payouts picks hits) m
                            then payout_or_zero payouts picks hits else m))
    by reflexivity.
  cbn [maxPayout].
  pose proof (max_loop (payout_or_zero payouts picks) 0 (Z.to_nat (picks + 1 - 0)) 0
                (Number 0) ltac:(lia) ltac:(intros; lia) ltac:(left; reflexivity)) as [H1 H2].
  split.
  - intros hits Hh. apply H1. lia.
  - destruct H2 as [->|(h & Hh & ->)]; [left; reflexivity|].
    right. exists h. split; [lia|reflexivity].
Qed.

Lemma max_payout_is_maximum_witness :
  gt (payout_or_zero table_3_8 1 1) (ps_maxPayout (summarize_pick table_3_8 1)) = false.
Proof. apply (proj1 (max_payout_is_maximum table_3_8 1 ltac:(lia)) 1). lia. Defined.

(** ** The CSV loader *)

Lemma row_cells_loop (row : list jsstring) (h : Z) :
  forall count a (cells : gmap Z number),
    for_loop count a
      (fun hitCol cells =>
         let hits := hitCol - 1 in
         match row !! Z.to_nat hitCol with
         | Some value =>
             if cell_present value then <[hits := parseFloat value]> cells else cells
         | None => cells
         end) cells !! h
    = if (a - 1 <=? h) && (h <? a - 1 + Z.of_nat count) then
        match row !! Z.to_nat (h + 1) with
        | Some value => if cell_present value then Some (parseFloat value) else cells !! h
        | None => cells !! h
        end
      else cells !! h.
Proof.
  induction count as [|c IH]; intros a cells; cbn [for_loop].
  - destruct (Z.leb_spec (a - 1) h), (Z.ltb_spec h (a - 1 + Z.of_nat 0)); simpl; try reflexivity; lia.
  - rewrite IH. cbv zeta.
    destruct (Z.eq_dec h (a - 1)) as [->|Hne].
    + replace (a - 1 + 1) with a by lia.
      destruct (Z.leb_spec (a + 1 - 1) (a - 1)); [lia|].
      destruct (Z.leb_spec (a - 1) (a - 1)); [|lia].
      destruct (Z.ltb_spec (a - 1) (a - 1 + Z.of_nat (S c))); [|lia]. simpl.
      destruct (row !! Z.to_nat a) as [value|]; [|reflexivity].
      destruct (cell_present value); [|reflexivity].
      apply lookup_insert_eq.
    + assert (Hl : forall v : jsstring,
                 (if cell_present v then <[a - 1 := parseFloat v]> cells else cells) !! h
                 = cells !! h).
      { intros v. destruct (cell_present v); [|reflexivity].
        apply lookup_insert_ne. lia. }
      assert (Hc : match row !! Z.to_nat a with
                   | Some value =>
                       if cell_present value then <[a - 1 := parseFloat value]> cells else cells
                   | None => cells
                   end !! h = cells !! h).
      { destruct (row !! Z.to_nat a); [apply Hl|reflexivity]. }
      rewrite Hc.
      destruct (Z.leb_spec (a + 1 - 1) h), (Z.ltb_spec h (a + 1 - 1 + Z.of_nat c)),
        (Z.leb_spec (a - 1) h), (Z.ltb_spec h (a - 1 + Z.of_nat (S c)));
        simpl; try reflexivity; lia.
Qed.

Lemma row_cells_cell_value (row : list jsstring) (hits : Z) :
  row_cells row !! hits = cell_value row hits.
Proof.
  unfold row_cells, for_le, cell_value. rewrite row_cells_loop.
  rewrite lookup_empty.
  change (Z.of_nat (Z.to_nat (11 + 1 - 1))) with 11.
  destruct (Z.leb_spec (1 - 1) hits), (Z.ltb_spec hits (1 - 1 + 11)),
    (Z.leb_spec 0 hits), (Z.leb_spec hits 10); simpl; try lia; reflexivity.
Qed.

Lemma index_loop {A St : Type} (f : St -> A -> St) :
  forall (rest pre : list A) (init : St),
    for_loop (List.length rest) (Z.of_nat (List.length pre))
      (fun i acc =>
         match (pre ++ rest) !! Z.to_nat i with
         | Some x => f acc x
         | None => acc
         end) init
    = fold_left f rest init.
Proof.
  induction rest as [|x rest IH]; intros pre init; cbn [for_loop List.length fold_left].
  - reflexivity.
  - rewrite Nat2Z.id, list_lookup_middle by reflexivity.
    replace (Z.of_nat (List.length pre) + 1) with (Z.of_nat (List.length (pre ++ x :: nil)))
      by (rewrite length_app; simpl; lia).
    rewrite (cons_middle x pre rest), app_assoc. apply IH.
Qed.

Lemma split_on_cons (sep : N) (s : jsstring) :
  exists first rest, split_on sep s = first :: rest.
Proof.
  induction s as [|c r IH]; simpl; [eauto|].
  destruct (c =? sep)%N; [eauto|].
  destruct IH as (f & rest & ->). eauto.
Qed.

(** [parsePayoutsCsv] folds the body of its loop over the lines after the
    first. *)
Lemma parsePayoutsCsv_fold (content : jsstring) :
  parsePayoutsCsv content = fold_left parse_line (data_lines content) ∅.
Proof.
  unfold parsePayoutsCsv, data_lines. cbv zeta.
  destruct (split_on_cons 10 (trim content)) as (first & rest & ->).
  unfold for_lt. cbn [tail List.length].
  replace (Z.to_nat (Z.of_nat (S (List.length rest)) - 1)) with (List.length rest) by lia.
  exact (index_loop parse_line rest (first :: nil) ∅).
Qed.

Lemma parse_line_key (payouts : gmap string (gmap Z number)) (line : jsstring) :
  parse_line payouts line
  = match line_key line with
    | Some key => <[key := row_cells (split_on 44 line)]> payouts
    | None => payouts
    end.
Proof.
  unfold parse_line, line_key. cbv zeta.
  destruct (split_on 44 line) as [|first rest]; [reflexivity|].
  destruct (is_empty first); [reflexivity|].
  destruct (isNaN (parseInt first)); reflexivity.
Qed.

Lemma fold_parse_line_lookup (key : string) (lines : list jsstring) :
  fold_left parse_line lines ∅ !! key
  = (fun line => row_cells (split_on 44 line)) <$> last_with_key key lines.
Proof.
  unfold last_with_key.
  induction lines as [|line lines IH] using rev_ind.
  - reflexivity.
  - rewrite fold_left_app, List.filter_app. cbn [fold_left List.filter].
    rewrite parse_line_key.
    destruct (line_key line) as [k|] eqn:Hk.
    + destruct (decide (k = key)) as [->|Hne].
      * rewrite bool_decide_eq_true_2 by reflexivity.
        rewrite last_snoc, lookup_insert_eq. reflexivity.
      * rewrite bool_decide_eq_false_2 by congruence.
        rewrite app_nil_r, lookup_insert_ne by exact Hne. exact IH.
    + rewrite bool_decide_eq_false_2 by congruence.
      rewrite app_nil_r. exact IH.
Qed.

(** X12: what [parsePayoutsCsv] stores under a key is the row of the last
    line, among those after the header line, whose first cell is not empty
    and parses ([parseInt]) to the Number with that key; lines with an empty
    or non-numeric first cell leave no trace, an earlier line with the same
    number is replaced as a whole, and a file without a second line gives
    the empty table. *)
Theorem parsePayoutsCsv_lookup (content : jsstring) :
  (forall key : string,
      parsePayoutsCsv content !! key
      = (fun line => row_cells (split_on 44 line))
          <$> last_with_key key (data_lines content))
  /\ (data_lines content = nil -> parsePayoutsCsv content = ∅).
Proof.
  rewrite parsePayoutsCsv_fold. split.
  - intros key. apply fold_parse_line_lookup.
  - intros ->. reflexivity.
Qed.

Lemma parsePayoutsCsv_lookup_witness :
  parsePayoutsCsv (units ",0,1,2") = ∅.
Proof. apply (proj2 (parsePayoutsCsv_lookup (units ",0,1,2"))). vm_compute. reflexivity. Defined.

(** X11: the object stored for a CSV row holds, for [hits = 0 .. 10], the
    [parseFloat] of the cell in column [hits + 1], and nothing for a cell
    that is missing, empty or blank; its keys lie in [0..10], and the cells
    after the twelfth are never read. *)
Theorem row_cells_lookup (row : list jsstring) :
  (forall hits, row_cells row !! hits = cell_value row hits)
  /\ (forall hits x, row_cells row !! hits = Some x -> 0 <= hits <= 10)
  /\ row_cells (take 12 row) = row_cells row.
Proof.
  split; [apply row_cells_cell_value|]. split.
  - intros hits x. rewrite row_cells_cell_value. unfold cell_value.
    destruct (Z.leb_spec 0 hits), (Z.leb_spec hits 10); simpl; try discriminate. lia.
  - apply map_eq. intros hits. rewrite !row_cells_cell_value. unfold cell_value.
    destruct (Z.leb_spec 0 hits), (Z.leb_spec hits 10); simpl; try reflexivity.
    rewrite lookup_take_lt by lia. reflexivity.
Qed.

Lemma row_cells_lookup_witness :
  row_cells (units "1" :: units "" :: units "3.8" :: nil) !! 1
  = cell_value (units "1" :: units "" :: units "3.8" :: nil) 1
  /\ 0 <= 1 <= 10.
Proof.
  split.
  - apply (proj1 (row_cells_lookup (units "1" :: units "" :: units "3.8" :: nil))).
  - apply (proj1 (proj2 (row_cells_lookup (units "1" :: units "" :: units "3.8" :: nil)))
             1 (parseFloat (units "3.8"))).
    vm_compute. reflexivity.
Defined.

Lemma by_picks_gen (payouts : gmap string (gmap Z number)) (l : list Z) (picks : Z) :
  foldr (fun picks (acc : gmap Z (gmap Z number)) =>
           match payouts !! toString (Number picks) with
           | Some row => <[picks := row]> acc
           | None => acc
           end) ∅ l !! picks
  = if bool_decide (picks ∈ l) then payouts !! toString (Number picks) else None.
Proof.
  induction l as [|x l IH]; cbn [foldr].
  - rewrite bool_decide_eq_false_2 by apply not_elem_of_nil. apply lookup_empty.
  - destruct (decide (x = picks)) as [->|Hne].
    + rewrite (bool_decide_eq_true_2 (picks ∈ picks :: l)) by apply list_elem_of_here.
      destruct (payouts !! toString (Number picks)) as [row|] eqn:E.
      * apply lookup_insert_eq.
      * rewrite IH. destruct (bool_decide (picks ∈ l)); reflexivity.
    + assert (Hin : bool_decide (picks ∈ x :: l) = bool_decide (picks ∈ l)).
      { apply bool_decide_ext. rewrite elem_of_cons. intuition congruence. }
      rewrite Hin.
      destruct (payouts !! toString (Number x)); [rewrite lookup_insert_ne by exact Hne|];
        exact IH.
Qed.

Lemma small_keys : forallb (fun p => String.eqb (toString (Number p)) (digits p)) (Zrange 1 10) = true.
Proof. vm_compute. reflexivity. Qed.

Lemma by_picks_lookup (payouts : gmap string (gmap Z number)) (picks : Z) :
  1 <= picks <= 10 -> by_picks payouts !! picks = payouts !! digits picks.
Proof.
  intros Hp. unfold by_picks. rewrite by_picks_gen.
  rewrite bool_decide_eq_true_2 by (apply list_elem_of_In, Zrange_In; exact Hp).
  pose proof (Zrange_forallb _ _ _ small_keys picks Hp) as Hk.
  apply String.eqb_eq in Hk. rewrite Hk. reflexivity.
Qed.

(** X13: from the file to the analysis: for [picks] in [1..10] the
    multiplier [analyzeKeno] uses for [hits] is the [parseFloat] of cell
    [hits + 1] of the last data line whose first cell parses to [picks],
    and [0] when there is no such line, when the cell is missing, empty or
    blank, or when it parses to [NaN] or to zero. *)
Theorem csv_multiplier (content : jsstring) (picks hits : Z) :
  1 <= picks <= 10 ->
  payout_or_zero (by_picks (parsePayoutsCsv content)) picks hits
  = match last_with_key (digits picks) (data_lines content) with
    | Some line =>
        match cell_value (split_on 44 line) hits with
        | Some x => if truthy x then x else Number 0
        | None => Number 0
        end
    | None => Number 0
    end.
Proof.
  intros Hp. unfold payout_or_zero, payout_entry.
  rewrite by_picks_lookup by exact Hp.
  rewrite parsePayoutsCsv_fold, fold_parse_line_lookup.
  destruct (last_with_key (digits picks) (data_lines content)) as [line|]; [|reflexivity].
  cbn [fmap option_fmap option_map]. rewrite row_cells_cell_value. reflexivity.
Qed.

Lemma csv_multiplier_witness :
  payout_or_zero
    (by_picks (parsePayoutsCsv
                 (units ",0,1,2" ++ 10%N :: units "1,,3.8" ++ 10%N :: units "1,x,0,7")))
    1 2
  = Number 7.
Proof. rewrite (csv_multiplier _ 1 2) by lia. vm_compute. reflexivity. Defined.

(** ** Trailing white space on a line *)

Lemma space_is_plain (c : N) :
  is_space c = true ->
  is_digit c = false
  /\ (c =? 45)%N = false /\ (c =? 43)%N = false /\ (c =? 46)%N = false
  /\ (c =? 44)%N = false /\ (c =? 101)%N = false /\ (c =? 69)%N = false
  /\ forallb (fun p => negb (p =? c)%N) (units "Infinity") = true.
Proof.
  unfold is_space, is_digit. intros H.
  repeat rewrite orb_true_iff in H. rewrite andb_true_iff in H.
  repeat rewrite N.eqb_eq in H. repeat rewrite N.leb_le in H.
  assert (Hc : (c < 43 \/ 101 < c)%N) by lia.
  repeat split.
  - apply andb_false_iff. rewrite !N.leb_gt. lia.
  - apply N.eqb_neq. lia.
  - apply N.eqb_neq. lia.
  - apply N.eqb_neq. lia.
  - apply N.eqb_neq. lia.
  - apply N.eqb_neq. lia.
  - apply N.eqb_neq. lia.
  - cbn [units list_ascii_of_string map forallb]. 
    repeat (apply andb_true_intro; split); try reflexivity;
      apply negb_true_iff, N.eqb_neq; cbn; lia.
Qed.

Lemma trim_start_empty (s : jsstring) : is_empty (trim_start s) = forallb is_space s.
Proof.
  induction s as [|x s IH]; simpl; [reflexivity|].
  destruct (is_space x); [exact IH|reflexivity].
Qed.

Lemma forallb_rev {A : Type} (f : A -> bool) (l : list A) : forallb f (rev l) = forallb f l.
Proof.
  induction l as [|x l IH]; simpl; [reflexivity|].
  rewrite forallb_app, IH. simpl. rewrite andb_true_r. apply andb_comm.
Qed.

Lemma is_empty_rev (s : jsstring) : is_empty (rev s) = is_empty s.
Proof. destruct s as [|x s]; [reflexivity|]. simpl. destruct (rev s); reflexivity. Qed.

Lemma trim_start_spaces (s : jsstring) :
  forallb is_space (trim_start s) = forallb is_space s.
Proof.
  induction s as [|x s IH]; simpl; [reflexivity|].
  destruct (is_space x) eqn:E; [exact IH|]. simpl. rewrite E. reflexivity.
Qed.

Lemma trim_empty (s : jsstring) : is_empty (trim s) = forallb is_space s.
Proof.
  unfold trim. rewrite is_empty_rev, trim_start_empty, forallb_rev. apply trim_start_spaces.
Qed.

Lemma cell_present_spaces (v : jsstring) : cell_present v = negb (forallb is_space v).
Proof.
  unfold cell_present. rewrite trim_empty. destruct v; reflexivity.
Qed.

Lemma trim_start_snoc (s : jsstring) (c : N) :
  is_space c = true ->
  trim_start (s ++ c :: nil) = if forallb is_space s then nil else trim_start s ++ c :: nil.
Proof.
  intros Hc. induction s as [|x s IH]; simpl.
  - rewrite Hc. reflexivity.
  - destruct (is_space x); [exact IH|reflexivity].
Qed.

Lemma take_sign_snoc (s : jsstring) (c : N) :
  s <> nil ->
  take_sign (s ++ c :: nil) = (fst (take_sign s), snd (take_sign s) ++ c :: nil).
Proof.
  intros Hs. destruct s as [|x s]; [congruence|]. simpl.
  destruct (x =? 45)%N; [reflexivity|]. destruct (x =? 43)%N; reflexivity.
Qed.

Lemma span_digits_snoc (s : jsstring) (c : N) :
  is_digit c = false ->
  span_digits (s ++ c :: nil) = (fst (span_digits s), snd (span_digits s) ++ c :: nil).
Proof.
  intros Hc. induction s as [|x s IH]; simpl.
  - rewrite Hc. reflexivity.
  - destruct (is_digit x); [|reflexivity].
    rewrite IH. destruct (span_digits s). reflexivity.
Qed.

Lemma starts_with_snoc (prefix s : jsstring) (c : N) :
  forallb (fun p => negb (p =? c)%N) prefix = true ->
  starts_with prefix (s ++ c :: nil) = starts_with prefix s.
Proof.
  revert s. induction prefix as [|p prefix IH]; intros s H; [reflexivity|].
  simpl in H. apply andb_prop in H as [Hp H].
  destruct s as [|x s]; simpl.
  - apply negb_true_iff in Hp. rewrite Hp. reflexivity.
  - rewrite IH by exact H. reflexivity.
Qed.

Section Plain.
Variable c : N.
Hypothesis Hc : is_space c = true.

Lemma exponent_part_snoc (s : jsstring) : exponent_part (s ++ c :: nil) = exponent_part s.
Proof.
  destruct (space_is_plain c Hc) as (Hd & Hm & Hp & Hdot & Hcomma & He & HE & Hinf).
  destruct s as [|x s]; simpl.
  - rewrite He, HE. reflexivity.
  - destruct ((x =? 101) || (x =? 69))%N; [|reflexivity].
    destruct s as [|y s].
    + simpl. rewrite Hm, Hp. simpl. rewrite Hd. reflexivity.
    + rewrite (take_sign_snoc (y :: s)) by discriminate.
      destruct (take_sign (y :: s)) as [neg r]. cbn [fst snd].
      rewrite span_digits_snoc by exact Hd.
      destruct (span_digits r). reflexivity.
Qed.

Lemma unsigned_literal_snoc (s : jsstring) :
  unsigned_literal (s ++ c :: nil) = unsigned_literal s.
Proof.
  destruct (space_is_plain c Hc) as (Hd & Hm & Hp & Hdot & Hcomma & He & HE & Hinf).
  unfold unsigned_literal. rewrite span_digits_snoc by exact Hd.
  destruct (span_digits s) as [d1 r1]. cbn [fst snd].
  destruct r1 as [|x r]; simpl.
  - rewrite Hdot, He, HE. reflexivity.
  - destruct (x =? 46)%N.
    + rewrite span_digits_snoc by exact Hd.
      destruct (span_digits r) as [d2 r2]. cbn [fst snd].
      rewrite exponent_part_snoc. reflexivity.
    + pose proof (exponent_part_snoc (x :: r)) as E. simpl in E. rewrite E. reflexivity.
Qed.

Lemma unsigned_literal_lone : unsigned_literal (c :: nil) = unsigned_literal nil.
Proof. exact (unsigned_literal_snoc nil). Qed.

Lemma parseFloat_snoc (s : jsstring) : parseFloat (s ++ c :: nil) = parseFloat s.
Proof.
  destruct (space_is_plain c Hc) as (Hd & Hm & Hp & Hdot & Hcomma & He & HE & Hinf).
  unfold parseFloat. rewrite trim_start_snoc by exact Hc.
  rewrite <- trim_start_empty.
  destruct (trim_start s) as [|x t] eqn:E; simpl is_empty; cbv iota.
  - reflexivity.
  - rewrite (take_sign_snoc (x :: t)) by discriminate.
    destruct (take_sign (x :: t)) as [neg body]. cbn [fst snd].
    rewrite starts_with_snoc by exact Hinf.
    rewrite unsigned_literal_snoc. reflexivity.
Qed.

Lemma parseInt_snoc (s : jsstring) : parseInt (s ++ c :: nil) = parseInt s.
Proof.
  destruct (space_is_plain c Hc) as (Hd & Hm & Hp & Hdot & Hcomma & He & HE & Hinf).
  unfold parseInt. rewrite trim_start_snoc by exact Hc.
  rewrite <- trim_start_empty.
  destruct (trim_start s) as [|x t] eqn:E; simpl is_empty; cbv iota.
  - reflexivity.
  - rewrite (take_sign_snoc (x :: t)) by discriminate.
    destruct (take_sign (x :: t)) as [neg body]. cbn [fst snd].
    rewrite span_digits_snoc by exact Hd.
    destruct (span_digits body). reflexivity.
Qed.

Lemma split_on_snoc (s : jsstring) :
  split_on 44 (s ++ c :: nil) = append_to_last c (split_on 44 s).
Proof.
  destruct (space_is_plain c Hc) as (Hd & Hm & Hp & Hdot & Hcomma & He & HE & Hinf).
  induction s as [|x s IH]; simpl.
  - rewrite Hcomma. reflexivity.
  - rewrite IH. destruct (split_on_cons 44 s) as (first & rest & E). rewrite E.
    destruct (x =? 44)%N.
    + reflexivity.
    + cbn [append_to_last]. destruct rest; reflexivity.
Qed.

Lemma append_to_last_lookup (cells : list jsstring) :
  forall i : nat,
    append_to_last c cells !! i
    = (fun v => if decide (S i = List.length cells) then v ++ c :: nil else v) <$> cells !! i.
Proof.
  induction cells as [|v cells IH]; intros i; [reflexivity|].
  destruct cells as [|w cells].
  - destruct i as [|i]; reflexivity.
  - change (append_to_last c (v :: w :: cells)) with (v :: append_to_last c (w :: cells)).
    destruct i as [|i].
    + reflexivity.
    + cbn [lookup list_lookup]. rewrite IH.
      destruct ((w :: cells) !! i) as [u|]; [|reflexivity].
      cbn [fmap option_fmap option_map]. cbn [List.length].
      destruct (decide (S i = S (List.length cells))), (decide (S (S i) = S (S (List.length cells))));
        try reflexivity; lia.
Qed.

Lemma cell_snoc (v : jsstring) :
  (if cell_present (v ++ c :: nil) then Some (parseFloat (v ++ c :: nil)) else None)
  = (if cell_present v then Some (parseFloat v) else None).
Proof.
  rewrite !cell_present_spaces, forallb_app, parseFloat_snoc. simpl.
  rewrite Hc, !andb_true_r. reflexivity.
Qed.

Lemma row_cells_append_to_last (row : list jsstring) :
  row_cells (append_to_last c row) = row_cells row.
Proof.
  apply map_eq. intros hits. rewrite !row_cells_cell_value. unfold cell_value.
  destruct ((0 <=? hits) && (hits <=? 10)); [|reflexivity].
  rewrite append_to_last_lookup.
  destruct (row !! Z.to_nat (hits + 1)) as [v|]; [|reflexivity].
  cbn [fmap option_fmap option_map].
  destruct (decide (S (Z.to_nat (hits + 1)) = List.length row)); [apply cell_snoc|reflexivity].
Qed.

End Plain.

(** X14: a white-space code unit at the end of a line, such as the
    carriage return of a file with CRLF line ends, changes nothing: the
    line is skipped or stored exactly as without it. *)
Theorem trailing_space_ignored (payouts : gmap string (gmap Z number))
    (line : jsstring) (c : N) :
  is_space c = true ->
  parse_line payouts (line ++ c :: nil) = parse_line payouts line.
Proof.
  intros Hc. unfold parse_line. cbv zeta.
  rewrite (split_on_snoc c Hc).
  rewrite (row_cells_append_to_last c Hc).
  destruct (split_on_cons 44 line) as (first & rest & E). rewrite E.
  set (cells := row_cells (first :: rest)). clearbody cells.
  destruct rest as [|second rest].
  - cbn [append_to_last]. destruct first as [|x first].
    + cbn [app is_empty].
      assert (Hnan : parseInt (c :: nil) = S754_nan).
      { change (parseInt (nil ++ c :: nil) = S754_nan).
        rewrite (parseInt_snoc c Hc). reflexivity. }
      rewrite Hnan. cbn [isNaN]. reflexivity.
    + cbn [app is_empty]. rewrite (app_comm_cons first (c :: nil) x).
      rewrite (parseInt_snoc c Hc). reflexivity.
  - cbn [append_to_last]. reflexivity.
Qed.

Lemma trailing_space_ignored_witness :
  parse_line ∅ (units "1,,3.8" ++ 13%N :: nil) = parse_line ∅ (units "1,,3.8").
Proof. apply (trailing_space_ignored ∅ (units "1,,3.8") 13). reflexivity. Defined.

(** ** The analysis reads only the cells on and left of the diagonal *)

Lemma for_loop_ext_range {St : Type} (f g : Z -> St -> St) :
  forall count a s,
    (forall i s, a <= i < a + Z.of_nat count -> f i s = g i s) ->
    for_loop count a f s = for_loop count a g s.
Proof.
  induction count as [|c IH]; intros a s H; cbn [for_loop]; [reflexivity|].
  rewrite H by lia. apply IH. intros i s' Hi. apply H. lia.
Qed.

(** X15: the figures of a pick level depend on the payout table only
    through the multipliers of [hits = 0 .. picks]: two tables that agree
    there give the same per-pick table and the same summary line, whatever
    they hold for other hit counts or other pick levels. *)
Theorem analysis_reads_hits_up_to_picks (p1 p2 : gmap Z (gmap Z number)) (picks : Z) :
  (forall hits, 0 <= hits <= picks ->
                payout_or_zero p1 picks hits = payout_or_zero p2 picks hits) ->
  analyze_pick p1 picks = analyze_pick p2 picks
  /\ summarize_pick p1 picks = summarize_pick p2 picks.
Proof.
  intros H. unfold analyze_pick, summarize_pick, for_le. split.
  - rewrite (for_loop_ext_range (detail_body p1 picks) (detail_body p2 picks)); [reflexivity|].
    intros hits st Hh. unfold detail_body. rewrite H by lia. reflexivity.
  - rewrite (for_loop_ext_range (summary_body p1 picks) (summary_body p2 picks)); [reflexivity|].
    intros hits st Hh. unfold summary_body. rewrite H by lia. reflexivity.
Qed.

Lemma analysis_reads_hits_up_to_picks_witness :
  summarize_pick (<[1 := <[5 := Number 9]> {[ 1 := ratio 38 10 ]}]> ∅) 1
  = summarize_pick table_3_8 1.
Proof.
  apply (analysis_reads_hits_up_to_picks
           (<[1 := <[5 := Number 9]> {[ 1 := ratio 38 10 ]}]> ∅) table_3_8 1).
  intros hits Hh. assert (hits = 0 \/ hits = 1) as [-> | ->] by lia; vm_compute; reflexivity.
Defined.
